(** * Load-then-aggregate pipeline of [Code/main.py]

    A shallow embedding of [load_data] and
    [calculate_average_and_variance_mirna_expression], together with the
    parts of [os.walk], [pandas] and [psutil] that the two functions call.

    Conventions of the model.
    - A Python [float] is a real number or the not-a-number marker; rounding
      and infinities of IEEE binary64 are not modelled, arithmetic is exact.
    - A [DataFrame] is the list of its rows, top to bottom, restricted to
      the two columns the program reads; both are taken to be there (a
      table without one of them, on which the column access raises, is
      outside the model).
    - A raised exception is the [Raise] outcome of the error monad
      [result]; nothing in [Code/main.py] catches exceptions.
    - The reductions [mean], [var] and [std] are those of pandas 2 on a
      [Series]: missing values are skipped, the variance divides by the
      count minus one, text cannot be reduced. *)

From Stdlib Require Import Reals Lra.
From stdpp Require Import base option list gmap strings.

Set Warnings "-register-all,-clear-no-such-hyp".

(** ** Exceptions *)

Inductive exn : Type :=
  | ValueError   (* "Could not find any matching files, wrong directory" *)
  | TypeError    (* a reduction met a value it cannot convert to numeric *)
  | ParserError. (* [pd.read_csv] could not decode or tokenise a file *)

Inductive result (A : Type) : Type :=
  | Ok (a : A)
  | Raise (e : exn).
Arguments Ok {A} a.
Arguments Raise {A} e.

Global Instance result_ret : MRet result := λ A a, Ok a.
Global Instance result_bind : MBind result := λ A B f m,
  match m with
  | Ok a => f a
  | Raise e => Raise e
  end.

(** ** Values, rows and tables *)

(** A Python float. *)
Inductive pyfloat : Type :=
  | Fin (x : R)
  | NaN.

(** A cell of the value column: a float (possibly the missing-value
    marker), or text that [read_csv] left as a string. *)
Inductive cell : Type :=
  | Number (v : pyfloat)
  | Text (s : string).

(** A cell of the key column: an identifier, or [None] for a missing
    value (pandas stores it as not-a-number). *)
Abbreviation key := (option string).

Record row : Type := Row {
  miRNA_ID : key;
  reads_per_million_miRNA_mapped : cell
}.

Abbreviation DataFrame := (list row).

(** One dictionary appended to [mirna_statistics]. *)
Record statistics : Type := Statistics {
  stat_miRNA_ID : key;
  average_expression : pyfloat;
  variance_expression : pyfloat;
  standard_deviation : pyfloat
}.

(** ** The pandas operations used by the aggregation *)

Module pd.

(** [Series.unique]: hash-table based, keeps the first occurrence of every
    value in order of appearance; all missing values count as one value. *)
Fixpoint unique_from (seen : gset key) (values : list key) : list key :=
  match values with
  | [] => []
  | v :: rest =>
      if decide (v ∈ seen) then unique_from seen rest
      else v :: unique_from ({[ v ]} ∪ seen) rest
  end.

Definition unique (values : list key) : list key := unique_from ∅ values.

(** Elementwise [==] against a scalar: a missing value equals nothing,
    not even another missing value. *)
Definition eq (a b : key) : bool :=
  match a, b with
  | Some x, Some y => bool_decide (x = y)
  | _, _ => false
  end.

(** [dataset[mask]]: boolean-mask selection, a new frame. *)
Definition select (mask : row → bool) (dataset : DataFrame) : DataFrame :=
  List.filter mask dataset.

(** What a reduction does with each cell of the column it is given: a
    float goes through, a string raises ("Could not convert string ... to
    numeric"). *)
Definition ensure_numeric (c : cell) : result pyfloat :=
  match c with
  | Number v => Ok v
  | Text _ => Raise TypeError
  end.

(** [skipna=True]: missing values are left out of every reduction. *)
Fixpoint dropna (values : list pyfloat) : list R :=
  match values with
  | [] => []
  | Fin x :: rest => x :: dropna rest
  | NaN :: rest => dropna rest
  end.

Fixpoint sum (xs : list R) : R :=
  match xs with
  | [] => 0%R
  | x :: rest => (x + sum rest)%R
  end.

(** Default delta degrees of freedom of [var] and [std]. *)
Definition ddof : nat := 1.

Definition nanmean (values : list pyfloat) : pyfloat :=
  let xs := dropna values in
  let count := length xs in
  if decide (0 < count) then Fin (sum xs / INR count)%R else NaN.

Definition nanvar (values : list pyfloat) : pyfloat :=
  let xs := dropna values in
  let count := length xs in
  if decide (count ≤ ddof) then NaN
  else
    let avg := (sum xs / INR count)%R in
    let sqr := map (λ x, (avg - x) ^ 2)%R xs in
    Fin (sum sqr / (INR count - INR ddof))%R.

Definition nanstd (values : list pyfloat) : pyfloat :=
  match nanvar values with
  | Fin v => Fin (sqrt v)
  | NaN => NaN
  end.

Definition mean (column : list cell) : result pyfloat :=
  values ← mapM ensure_numeric column; mret (nanmean values).

Definition var (column : list cell) : result pyfloat :=
  values ← mapM ensure_numeric column; mret (nanvar values).

Definition std (column : list cell) : result pyfloat :=
  values ← mapM ensure_numeric column; mret (nanstd values).

End pd.

(** ** The grouping loop of
       [calculate_average_and_variance_mirna_expression] *)

(** [dataset[dataset["miRNA_ID"] == mirna_id]]. *)
Definition mirna_subset (dataset : DataFrame) (mirna_id : key) : DataFrame :=
  pd.select (λ r, pd.eq (miRNA_ID r) mirna_id) dataset.

(** One iteration of the loop: the dictionary appended for [mirna_id]. *)
Definition loop_body (dataset : DataFrame) (mirna_id : key) : result statistics :=
  let column := map reads_per_million_miRNA_mapped (mirna_subset dataset mirna_id) in
  average_expression ← pd.mean column;
  variance_expression ← pd.var column;
  stddev_expression ← pd.std column;
  mret (Statistics mirna_id average_expression variance_expression stddev_expression).

(** The list [mirna_statistics] once the loop has run. *)
Definition mirna_statistics (dataset : DataFrame) : result (list statistics) :=
  mapM (loop_body dataset) (pd.unique (map miRNA_ID dataset)).

(** ** Resource sampling and the whole function *)

(** What the six [psutil] queries of one call answer, named after the local
    variables that receive them. *)
Record psutil_readings : Type := Readings {
  cpu_before : R;
  ram_before : R;
  disk_before : R;
  cpu_after : R;
  ram_after : R;
  disk_after : R
}.

(** A line printed on the console. *)
Inductive line : Type :=
  | CPU_Usage (percent : R)
  | RAM_Usage (percent : R)
  | Disk_Usage (percent : R).

(** Python objects live in a store; a variable holds a reference. *)
Inductive object : Type :=
  | Frame (rows : DataFrame)
  | StatisticsFrame (rows : list statistics).

Record world : Type := World {
  heap : gmap positive object;
  console : list line
}.

(** [calculate_average_and_variance_mirna_expression(dataset)], run in a
    world whose operating system answers the resource queries with [ps].
    It returns the world it leaves behind and either a reference to the
    frame it built or the exception that ended it. *)
Definition calculate_average_and_variance_mirna_expression
    (ps : psutil_readings) (dataset : positive) (w : world) : world * result positive :=
  match heap w !! dataset with
  | Some (Frame rows) =>
      match mirna_statistics rows with
      | Ok statistics =>
          let cpu_usage := (cpu_after ps - cpu_before ps)%R in
          let ram_usage := (ram_after ps - ram_before ps)%R in
          let disk_usage := (disk_after ps - disk_before ps)%R in
          let printed := [CPU_Usage cpu_usage; RAM_Usage ram_usage; Disk_Usage disk_usage] in
          let frame := fresh (dom (heap w)) in
          (World (<[frame := StatisticsFrame statistics]> (heap w)) (console w ++ printed),
           Ok frame)
      | Raise e => (w, Raise e)
      end
  | _ => (w, Raise TypeError)
  end.

(** The table a call returns, read back from the store. *)
Definition returned_table (out : world * result positive) : result (list statistics) :=
  match out with
  | (w, Ok frame) =>
      match heap w !! frame with
      | Some (StatisticsFrame rows) => Ok rows
      | _ => Raise TypeError
      end
  | (_, Raise e) => Raise e
  end.

(** ** The directory tree and [load_data] *)

(** A regular file: its name and what [pd.read_csv] makes of its bytes. *)
Record file : Type := File {
  file_name : string;
  read_csv : result DataFrame
}.

Inductive directory : Type :=
  | Directory (files : list file) (dirs : list (string * directory)).

Definition path_join (root name : string) : string := root +:+ "/" +:+ name.

(** [os.walk(top)], top-down: the directory itself, then every
    subdirectory in listing order. *)
Fixpoint walk (top : string) (d : directory) : list (string * list string * list file) :=
  match d with
  | Directory files dirs =>
      (top, map fst dirs, files) ::
      (fix walk_dirs (ds : list (string * directory)) :=
         match ds with
         | [] => []
         | (name, sub) :: rest => walk (path_join top name) sub ++ walk_dirs rest
         end) dirs
  end.

Definition is_sidecar (name : string) : bool :=
  bool_decide (name = "annotations.txt") || bool_decide (name = "MANIFEST.txt").

(** The loop over the files of one directory. *)
Fixpoint read_files (files : list file) (dataframes : list DataFrame)
    : result (list DataFrame) :=
  match files with
  | [] => Ok dataframes
  | file :: rest =>
      if bool_decide (file_name file = "annotations.txt") then read_files rest dataframes
      else if bool_decide (file_name file = "MANIFEST.txt") then read_files rest dataframes
      else
        data ← read_csv file;
        read_files rest (dataframes ++ [data])
  end.

(** The loop over what [walk] yields. *)
Fixpoint read_directories (entries : list (string * list string * list file))
    (dataframes : list DataFrame) : result (list DataFrame) :=
  match entries with
  | [] => Ok dataframes
  | (root, _, files) :: rest =>
      match files with
      | [] => read_directories rest dataframes
      | _ =>
          dataframes' ← read_files files dataframes;
          read_directories rest dataframes'
      end
  end.

Definition load_data (base_path : string) (tree : directory) : result DataFrame :=
  dataframes ← read_directories (walk base_path tree) [];
  match dataframes with
  | [] => Raise ValueError
  | _ => Ok (concat dataframes)
  end.

(** ** Vocabulary of the statements *)

Definition is_text (c : cell) : bool :=
  match c with
  | Text _ => true
  | Number _ => false
  end.

(** The value column has a floating-point dtype: no cell holds text. *)
Definition numeric_column (dataset : DataFrame) : bool :=
  forallb (λ r, negb (is_text (reads_per_million_miRNA_mapped r))) dataset.

(** Some row with a key present holds text in the value column. *)
Definition text_in_some_group (dataset : DataFrame) : bool :=
  existsb (λ r, bool_decide (is_Some (miRNA_ID r))
                && is_text (reads_per_million_miRNA_mapped r)) dataset.

(** The value-column entries of the group of [mirna_id]. *)
Definition group_column (dataset : DataFrame) (mirna_id : key) : list cell :=
  map reads_per_million_miRNA_mapped (mirna_subset dataset mirna_id).

(** The numbers among some cells, in order. *)
Fixpoint numbers (column : list cell) : list R :=
  match column with
  | [] => []
  | Number (Fin x) :: rest => x :: numbers rest
  | _ :: rest => numbers rest
  end.

(** Position of the first occurrence of [k], the length when absent. *)
Fixpoint first_index (k : key) (values : list key) : nat :=
  match values with
  | [] => 0
  | v :: rest => if decide (v = k) then 0 else S (first_index k rest)
  end.

Definition arithmetic_mean (xs : list R) : R :=
  (pd.sum xs / INR (length xs))%R.

Definition sample_variance (xs : list R) : R :=
  (pd.sum (map (λ x, (x - arithmetic_mean xs) * (x - arithmetic_mean xs)) xs)
   / INR (length xs - 1))%R.

(** Every file of the tree, in the order [walk] meets them. *)
Fixpoint all_files (d : directory) : list file :=
  match d with
  | Directory files dirs =>
      files ++
      (fix all_files_dirs (ds : list (string * directory)) :=
         match ds with
         | [] => []
         | (_, sub) :: rest => all_files sub ++ all_files_dirs rest
         end) dirs
  end.

(** A file that is not skipped by name. *)
Definition is_data (f : file) : bool := negb (is_sidecar (file_name f)).

(** The files that are not skipped by name. *)
Definition data_files (d : directory) : list file :=
  List.filter is_data (all_files d).

Definition parses (f : file) : bool :=
  match read_csv f with
  | Ok _ => true
  | Raise _ => false
  end.

(** The files that are neither skipped nor rejected by [read_csv]. *)
Definition eligible_files (d : directory) : list file :=
  List.filter parses (data_files d).

(** The rows [read_csv] returns for a file, none when it raises. *)
Definition rows_of (f : file) : DataFrame :=
  match read_csv f with
  | Ok table => table
  | Raise _ => []
  end.

Definition row_count (f : file) : nat := length (rows_of f).

(** The tree with every sidecar file taken out. *)
Fixpoint without_sidecars (d : directory) : directory :=
  match d with
  | Directory files dirs =>
      Directory
        (List.filter is_data files)
        ((fix without_sidecars_dirs (ds : list (string * directory)) :=
            match ds with
            | [] => []
            | (name, sub) :: rest =>
                (name, without_sidecars sub) :: without_sidecars_dirs rest
            end) dirs)
  end.

(** What the loop appends for [mirna_id] when its group holds no text:
    the three reductions over the numbers of the group. *)
Definition group_statistics (dataset : DataFrame) (mirna_id : key) : statistics :=
  let values := map Fin (numbers (group_column dataset mirna_id)) in
  Statistics mirna_id (pd.nanmean values) (pd.nanvar values) (pd.nanstd values).

(** Every row has a key. *)
Definition no_missing_keys (dataset : DataFrame) : bool :=
  forallb (λ r, bool_decide (is_Some (miRNA_ID r))) dataset.

(** [read_csv] on this file raises the loader's own no-data error. *)
Definition raises_no_data (f : file) : bool :=
  match read_csv f with
  | Raise ValueError => true
  | _ => false
  end.


(** ** The grouped reduction of the design notes

    Modelled from the spec: the single grouped-reduction pass of the design
    notes is not in [Code/main.py].  One traversal of the table builds an
    index from key to the value cells of its group, in insertion order as a
    Python [dict] keeps them; each entry is then reduced with the same
    [mean], [var] and [std] the loop applies to a subset.  The notes do not
    say what becomes of a row without a key, so both usual treatments are
    modelled: filing it under the missing key, as a [dict] does, or
    leaving it out, as [groupby] does. *)

Section index.
Context {Acc : Type}.
Variable empty : Acc.


End index.







(** ** Concrete inputs *)

Definition X : key := Some "hsa-let-7a-1".
Definition Y : key := Some "hsa-let-7b".

Definition dataset_123 : DataFrame :=
  [Row X (Number (Fin 1)); Row Y (Number (Fin 5));
   Row X (Number (Fin 2)); Row X (Number (Fin 3))].

Definition dataset_text : DataFrame :=
  [Row X (Number (Fin 1)); Row X (Number (Fin 3)); Row Y (Text "abc")].

Definition dataset_missing_value : DataFrame :=
  [Row X (Number (Fin 1)); Row X (Number NaN); Row X (Number (Fin 3))].

Definition dataset_missing_key : DataFrame :=
  [Row None (Number (Fin 5))].

(** A world in which reference 1 holds [dataset_123], and two sets of
    answers of the operating system. *)
Definition world_123 : world := World {[ 1%positive := Frame dataset_123 ]} [].

Definition idle : psutil_readings := Readings 0 0 0 0 0 0.
Definition busy : psutil_readings := Readings 10 40 70 90 45 71.

(** A download folder: a manifest at the top, one folder per case with a
    data file, and annotation files at two depths. *)
Definition a_tsv : file :=
  File "a.tsv" (Ok [Row (Some "X") (Number (Fin 10)); Row (Some "Y") (Number (Fin 20))]).
Definition b_tsv : file :=
  File "b.tsv" (Ok [Row (Some "X") (Number (Fin 30))]).
Definition manifest : file :=
  File "MANIFEST.txt" (Ok [Row (Some "id") (Text "filename")]).
Definition annotations : file :=
  File "annotations.txt" (Ok [Row None (Text "garbage")]).
Definition annotations_unreadable : file :=
  File "annotations.txt" (Raise ParserError).
Definition broken_tsv : file :=
  File "broken.tsv" (Raise ParserError).

Definition tree_download : directory :=
  Directory [manifest]
    [("case-1", Directory [a_tsv; annotations_unreadable] []);
     ("case-2", Directory [b_tsv] [("logs", Directory [annotations] [])])].

Definition tree_plain : directory :=
  Directory []
    [("case-1", Directory [a_tsv] []);
     ("case-2", Directory [b_tsv] [("logs", Directory [] [])])].

Definition tree_broken : directory := Directory [broken_tsv] [].

Definition tree_mixed : directory := Directory [a_tsv; broken_tsv] [].

Definition tree_sidecars_only : directory :=
  Directory [manifest] [("case-1", Directory [annotations] [])].

(** ** [calculate_average_mirna_expression] *)

Module average.

(** One dictionary appended to [mirna_expressions]. *)
Record row : Type := Row {
  mirna_id : key;
  average_expression : pyfloat
}.

End average.

(** The loop of [calculate_average_mirna_expression] over the keys still to
    do: the rows appended so far, the counter and what was printed so far
    are carried along.  An exception ends the loop; what was printed
    stays printed. *)
Fixpoint average_loop (dataset : DataFrame) (ids : list key)
    (mirna_expressions : list average.row) (counter : nat) (printed : list nat)
    : list nat * result (list average.row) :=
  match ids with
  | [] => (printed, Ok mirna_expressions)
  | mirna_id :: rest =>
      let mirna_subset := mirna_subset dataset mirna_id in
      match pd.mean (map reads_per_million_miRNA_mapped mirna_subset) with
      | Ok average =>
          let mirna_expressions := mirna_expressions ++ [average.Row mirna_id average] in
          let counter := counter + 1 in
          average_loop dataset rest mirna_expressions counter (printed ++ [counter])
      | Raise e => (printed, Raise e)
      end
  end.

(** [calculate_average_mirna_expression(dataset)]: the counters it prints
    and the frame it returns or the exception that ends it. *)
Definition calculate_average_mirna_expression (dataset : DataFrame)
    : list nat * result (list average.row) :=
  average_loop dataset (pd.unique (map miRNA_ID dataset)) [] 0 [].

(** ** The script at the end of the module *)

(** What the script and the function it calls print, in order. *)
Inductive output : Type :=
  | Print_miRNA_data (rows : DataFrame)
  | Print_usage (l : line)
  | Print_analysis (rows : list (nat * statistics))
  | Print_analysis_time (seconds : Z).

(** [%d] applied to a float: the integer part, towards zero. *)
Definition int (x : R) : Z :=
  if Rle_dec 0 x then Int_part x else (- Int_part (- x))%Z.

(** A frame built from a list of dictionaries has the row labels 0, 1, ...;
    [to_csv(..., index=True)] writes the label in front of each row. *)
Definition to_csv (rows : list statistics) : list (nat * statistics) :=
  imap (λ i r, (i, r)) rows.

(** A run of the script: what it printed, the rows of [miRNA_output.txt]
    when the file was written, and how the run ended. *)
Record process : Type := Process {
  stdout : list output;
  miRNA_output_txt : option (list (nat * statistics));
  exit : result unit
}.

(** The script, run on the tree found at [./miRNA Files], with the answers
    [ps] to the resource queries and the two clock readings. *)
Definition main (tree : directory) (ps : psutil_readings) (start end_ : R) : process :=
  match load_data "./miRNA Files" tree with
  | Raise e => Process [] None (Raise e)
  | Ok miRNA_data =>
      let printed := [Print_miRNA_data miRNA_data] in
      let w := World {[ 1%positive := Frame miRNA_data ]} [] in
      match calculate_average_and_variance_mirna_expression ps 1%positive w with
      | (w', Raise e) => Process (printed ++ map Print_usage (console w')) None (Raise e)
      | (w', Ok analysis) =>
          let printed := printed ++ map Print_usage (console w') in
          match heap w' !! analysis with
          | Some (StatisticsFrame rows) =>
              let written := to_csv rows in
              Process (printed ++ [Print_analysis written;
                                   Print_analysis_time (int (end_ - start))])
                      (Some written) (Ok ())
          | _ => Process printed None (Raise TypeError)
          end
      end
  end.

(** ** More vocabulary *)

(** The columns of a row of statistics that
    [calculate_average_mirna_expression] has too. *)
Definition to_average (s : statistics) : average.row :=
  average.Row (stat_miRNA_ID s) (average_expression s).

Definition group_has_text (dataset : DataFrame) (mirna_id : key) : bool :=
  existsb is_text (group_column dataset mirna_id).

(** More inputs. *)
Definition dataset_all_missing : DataFrame :=
  [Row X (Number NaN); Row Y (Number (Fin 5)); Row X (Number NaN)].

Definition dataset_missing_key_text : DataFrame :=
  [Row X (Number (Fin 1)); Row None (Text "abc"); Row None (Number (Fin 5))].

Definition header_only : file := File "empty.tsv" (Ok []).

Definition tree_header_only : directory :=
  Directory [manifest] [("case-1", Directory [header_only] [])].

Definition manifest_lowercase : file :=
  File "manifest.txt" (Ok [Row (Some "id") (Number (Fin 1))]).

Definition tree_lowercase : directory :=
  Directory [manifest_lowercase; manifest] [("case-1", Directory [a_tsv] [])].


(** How many of the leading keys of [ids] have a group without text. *)
Fixpoint groups_before_text (dataset : DataFrame) (ids : list key) : nat :=
  match ids with
  | [] => 0
  | mirna_id :: rest =>
      if group_has_text dataset mirna_id then 0
      else S (groups_before_text dataset rest)
  end.

(** ** Lemmas on the error monad *)

Section mapM_result.
Context {A B : Type} (f : A → result B).

Lemma mapM_nil : mapM f [] = Ok [].
Proof. reflexivity. Qed.

Lemma mapM_cons x l :
  mapM f (x :: l) = (y ← f x; k ← mapM f l; mret (y :: k)).
Proof. reflexivity. Qed.

Lemma mapM_Ok_Forall2 l out :
  mapM f l = Ok out ↔ Forall2 (λ x y, f x = Ok y) l out.
Proof.
  revert out. induction l as [|x l IH]; intros out.
  - rewrite mapM_nil. split.
    + intros [= <-]. constructor.
    + intros H. inversion H. reflexivity.
  - rewrite mapM_cons. split.
    + destruct (f x) as [y|e] eqn:Hx; [|discriminate]. cbn.
      destruct (mapM f l) as [k|e] eqn:Hl; [|discriminate]. cbn.
      intros [= <-]. constructor; [assumption|]. by apply IH.
    + intros H. inversion H as [|? y ? k Hx Hk]; subst.
      rewrite Hx. cbn. apply IH in Hk. rewrite Hk. reflexivity.
Qed.

Lemma mapM_Ok_map (g : A → B) l :
  (∀ x, x ∈ l → f x = Ok (g x)) → mapM f l = Ok (map g l).
Proof.
  intros H. apply mapM_Ok_Forall2. induction l as [|x l IH]; cbn.
  - constructor.
  - constructor.
    + apply H. left.
    + apply IH. intros y Hy. apply H. by right.
Qed.

Lemma mapM_Raise e l :
  (∀ x e', x ∈ l → f x = Raise e' → e' = e) →
  (∃ x, x ∈ l ∧ f x = Raise e) →
  mapM f l = Raise e.
Proof.
  induction l as [|x l IH]; intros Hexn [x0 [Hin Hx0]].
  - inversion Hin.
  - rewrite mapM_cons. destruct (f x) as [y|e'] eqn:Hx; cbn.
    + rewrite IH; [reflexivity| |].
      * intros z e' Hz. apply Hexn. by right.
      * exists x0. split; [|assumption].
        apply elem_of_cons in Hin as [->|Hin]; [congruence|assumption].
    + f_equal. eapply Hexn; [left|eassumption].
Qed.

End mapM_result.
(** ** [unique] keeps first occurrences in order *)

Lemma unique_from_elem seen l k :
  k ∈ pd.unique_from seen l ↔ k ∈ l ∧ k ∉ seen.
Proof.
  revert seen. induction l as [|v l IH]; intros seen; cbn.
  - split; [intros H; inversion H | intros [H _]; inversion H].
  - destruct (decide (v ∈ seen)) as [Hv|Hv].
    + rewrite IH. set_solver.
    + rewrite elem_of_cons, IH, elem_of_cons, not_elem_of_union, not_elem_of_singleton.
      destruct (decide (k = v)) as [->|Hne]; naive_solver.
Qed.

Lemma unique_from_NoDup seen l : NoDup (pd.unique_from seen l).
Proof.
  revert seen. induction l as [|v l IH]; intros seen; cbn.
  - constructor.
  - destruct (decide (v ∈ seen)); [apply IH|].
    constructor; [|apply IH].
    rewrite unique_from_elem. set_solver.
Qed.

Lemma unique_from_snoc seen l k :
  pd.unique_from seen (l ++ [k]) =
  pd.unique_from seen l ++ (if decide (k ∈ seen ∨ k ∈ l) then [] else [k]).
Proof.
  revert seen. induction l as [|v l IH]; intros seen; cbn.
  - destruct (decide (k ∈ seen)) as [Hk|Hk].
    + rewrite decide_True; [reflexivity | by left].
    + rewrite decide_False; [reflexivity|].
      intros [?|H]; [done | inversion H].
  - destruct (decide (v ∈ seen)) as [Hv|Hv].
    + rewrite IH. f_equal. apply decide_ext. set_solver.
    + rewrite IH. cbn. f_equal. f_equal. apply decide_ext. set_solver.
Qed.

Lemma unique_elem l k : k ∈ pd.unique l ↔ k ∈ l.
Proof. unfold pd.unique. rewrite unique_from_elem. set_solver. Qed.

Lemma unique_NoDup l : NoDup (pd.unique l).
Proof. apply unique_from_NoDup. Qed.

Lemma unique_snoc l k :
  pd.unique (l ++ [k]) = pd.unique l ++ (if decide (k ∈ l) then [] else [k]).
Proof.
  unfold pd.unique. rewrite unique_from_snoc. f_equal.
  apply decide_ext. set_solver.
Qed.

Lemma first_index_lt k l : k ∈ l → first_index k l < length l.
Proof.
  induction l as [|v l IH]; intros Hk; [inversion Hk|]. cbn.
  destruct (decide (v = k)) as [->|Hne]; [lia|].
  apply elem_of_cons in Hk as [->|Hk]; [done|]. specialize (IH Hk). lia.
Qed.

Lemma first_index_app_elem k l l' :
  k ∈ l → first_index k (l ++ l') = first_index k l.
Proof.
  induction l as [|v l IH]; intros Hk; [inversion Hk|]. cbn.
  destruct (decide (v = k)) as [->|Hne]; [reflexivity|].
  apply elem_of_cons in Hk as [->|Hk]; [done|]. by rewrite IH.
Qed.

Lemma first_index_snoc_fresh k l :
  k ∉ l → first_index k (l ++ [k]) = length l.
Proof.
  induction l as [|v l IH]; intros Hk; cbn.
  - by rewrite decide_True.
  - rewrite decide_False by set_solver. rewrite IH by set_solver. reflexivity.
Qed.

Lemma unique_first_seen l i j ki kj :
  pd.unique l !! i = Some ki → pd.unique l !! j = Some kj → i < j →
  first_index ki l < first_index kj l.
Proof.
  revert i j ki kj. induction l as [|k l IH] using rev_ind; intros i j ki kj Hi Hj Hij.
  - discriminate.
  - rewrite unique_snoc in Hi, Hj.
    destruct (decide (k ∈ l)) as [Hk|Hk].
    + rewrite app_nil_r in Hi, Hj.
      rewrite !first_index_app_elem
        by (apply unique_elem; eapply list_elem_of_lookup_2; eassumption).
      eauto.
    + assert (Hlen : j < length (pd.unique l) ∨ j = length (pd.unique l)).
      { apply lookup_lt_Some in Hj. rewrite length_app in Hj. cbn in Hj. lia. }
      destruct Hlen as [Hlt| ->].
      * rewrite lookup_app_l in Hi, Hj by lia.
        rewrite !first_index_app_elem
          by (apply unique_elem; eapply list_elem_of_lookup_2; eassumption).
        eauto.
      * rewrite lookup_app_l in Hi by lia.
        rewrite lookup_app_r, Nat.sub_diag in Hj by lia.
        injection Hj as <-.
        assert (ki ∈ l) as Hki
          by (apply unique_elem; eapply list_elem_of_lookup_2; eassumption).
        rewrite first_index_app_elem by assumption.
        rewrite first_index_snoc_fresh by assumption.
        by apply first_index_lt.
Qed.

(** ** The reductions and the loop body *)

Lemma dropna_Fin xs : pd.dropna (map Fin xs) = xs.
Proof. induction xs as [|x xs IH]; cbn; [reflexivity | by rewrite IH]. Qed.

Lemma nanmean_dropna values :
  pd.nanmean values = pd.nanmean (map Fin (pd.dropna values)).
Proof. unfold pd.nanmean. by rewrite dropna_Fin. Qed.

Lemma nanvar_dropna values :
  pd.nanvar values = pd.nanvar (map Fin (pd.dropna values)).
Proof. unfold pd.nanvar. by rewrite dropna_Fin. Qed.

Lemma nanstd_dropna values :
  pd.nanstd values = pd.nanstd (map Fin (pd.dropna values)).
Proof. unfold pd.nanstd. by rewrite <- nanvar_dropna. Qed.

Lemma ensure_numeric_numbers column :
  existsb is_text column = false →
  ∃ values, mapM pd.ensure_numeric column = Ok values
            ∧ pd.dropna values = numbers column.
Proof.
  induction column as [|c column IH]; intros Htext.
  - by exists [].
  - cbn in Htext. apply orb_false_iff in Htext as [Hc Hrest].
    destruct (IH Hrest) as (values & Hvalues & Hdrop).
    destruct c as [v|s]; [|discriminate].
    exists (v :: values). rewrite mapM_cons, Hvalues. cbn.
    split; [reflexivity|]. destruct v; cbn; by rewrite Hdrop.
Qed.

Lemma ensure_numeric_text column :
  existsb is_text column = true →
  mapM pd.ensure_numeric column = Raise TypeError.
Proof.
  intros Htext. apply mapM_Raise.
  - intros [v|s] e _; cbn; congruence.
  - apply existsb_exists in Htext as (c & Hin & Hc).
    exists c. split; [by apply list_elem_of_In|].
    destruct c; [discriminate | reflexivity].
Qed.

Lemma loop_body_numbers dataset mirna_id :
  existsb is_text (group_column dataset mirna_id) = false →
  loop_body dataset mirna_id = Ok (group_statistics dataset mirna_id).
Proof.
  intros Htext. destruct (ensure_numeric_numbers _ Htext) as (values & Hvalues & Hdrop).
  unfold loop_body, group_statistics, pd.mean, pd.var, pd.std.
  fold (group_column dataset mirna_id). rewrite Hvalues. cbn.
  rewrite <- Hdrop, <- nanmean_dropna, <- nanvar_dropna, <- nanstd_dropna.
  reflexivity.
Qed.

Lemma loop_body_text dataset mirna_id :
  existsb is_text (group_column dataset mirna_id) = true →
  loop_body dataset mirna_id = Raise TypeError.
Proof.
  intros Htext. unfold loop_body, pd.mean.
  fold (group_column dataset mirna_id).
  by rewrite (ensure_numeric_text _ Htext).
Qed.

Lemma loop_body_exn dataset mirna_id e :
  loop_body dataset mirna_id = Raise e → e = TypeError.
Proof.
  destruct (existsb is_text (group_column dataset mirna_id)) eqn:Htext.
  - rewrite (loop_body_text _ _ Htext). congruence.
  - rewrite (loop_body_numbers _ _ Htext). discriminate.
Qed.

(** ** Groups *)

Lemma pd_eq_true a b : pd.eq a b = true ↔ a = b ∧ is_Some b.
Proof.
  destruct a as [x|], b as [y|]; cbn.
  - rewrite bool_decide_eq_true. split.
    + intros ->. eauto.
    + intros [[= ->] _]. reflexivity.
  - split; [discriminate | intros [[=] _]].
  - split; [discriminate | intros [[=] _]].
  - split; [discriminate | intros [_ [? [=]]]].
Qed.

Lemma elem_of_mirna_subset dataset mirna_id r :
  r ∈ mirna_subset dataset mirna_id ↔
  r ∈ dataset ∧ miRNA_ID r = mirna_id ∧ is_Some mirna_id.
Proof.
  unfold mirna_subset, pd.select.
  rewrite !list_elem_of_In, filter_In, pd_eq_true. reflexivity.
Qed.

Lemma group_column_text dataset mirna_id :
  existsb is_text (group_column dataset mirna_id) = true ↔
  ∃ r, r ∈ dataset ∧ miRNA_ID r = mirna_id ∧ is_Some mirna_id
       ∧ is_text (reads_per_million_miRNA_mapped r) = true.
Proof.
  unfold group_column. rewrite existsb_exists. split.
  - intros (c & Hin & Hc). apply in_map_iff in Hin as (r & <- & Hr).
    apply list_elem_of_In, elem_of_mirna_subset in Hr. naive_solver.
  - intros (r & Hr & Hk & Hs & Hc). exists (reads_per_million_miRNA_mapped r).
    split; [|assumption]. apply in_map, list_elem_of_In, elem_of_mirna_subset.
    naive_solver.
Qed.

Lemma text_in_some_group_spec dataset :
  text_in_some_group dataset = true ↔
  ∃ mirna_id, mirna_id ∈ pd.unique (map miRNA_ID dataset)
              ∧ existsb is_text (group_column dataset mirna_id) = true.
Proof.
  unfold text_in_some_group. rewrite existsb_exists. split.
  - intros (r & Hr & Hc). apply andb_true_iff in Hc as [Hk Hc].
    apply bool_decide_eq_true in Hk. apply list_elem_of_In in Hr.
    exists (miRNA_ID r). split.
    + apply unique_elem, list_elem_of_fmap. eauto.
    + apply group_column_text. eauto.
  - intros (k & _ & Hk). apply group_column_text in Hk as (r & Hr & <- & Hs & Hc).
    exists r. split; [by apply list_elem_of_In|].
    apply andb_true_iff. split; [by apply bool_decide_eq_true | assumption].
Qed.

Lemma numeric_column_no_text dataset :
  numeric_column dataset = true → text_in_some_group dataset = false.
Proof.
  unfold numeric_column, text_in_some_group. intros Hnum.
  apply not_true_is_false. intros Htext.
  apply existsb_exists in Htext as (r & Hr & Hc).
  rewrite forallb_forall in Hnum. specialize (Hnum r Hr).
  apply andb_true_iff in Hc as [_ Hc]. rewrite Hc in Hnum. discriminate.
Qed.

(** ** The loop as a whole *)

Lemma mirna_statistics_Ok dataset :
  text_in_some_group dataset = false →
  mirna_statistics dataset =
  Ok (map (group_statistics dataset) (pd.unique (map miRNA_ID dataset))).
Proof.
  intros Htext. apply mapM_Ok_map. intros k Hk. apply loop_body_numbers.
  apply not_true_is_false. intros Hgroup.
  assert (text_in_some_group dataset = true) by (apply text_in_some_group_spec; eauto).
  congruence.
Qed.

Lemma mirna_statistics_Raise dataset :
  text_in_some_group dataset = true →
  mirna_statistics dataset = Raise TypeError.
Proof.
  intros Htext. apply text_in_some_group_spec in Htext as (k & Hk & Hgroup).
  apply mapM_Raise.
  - intros k' e _. apply loop_body_exn.
  - exists k. split; [assumption | by apply loop_body_text].
Qed.

Lemma map_key_group_statistics dataset ks :
  map stat_miRNA_ID (map (group_statistics dataset) ks) = ks.
Proof. rewrite map_map. cbn. apply map_id. Qed.

(** ** The reductions on a group of numbers *)

Lemma nanmean_numbers xs :
  0 < length xs → pd.nanmean (map Fin xs) = Fin (arithmetic_mean xs).
Proof.
  intros Hlen. unfold pd.nanmean. rewrite dropna_Fin.
  by rewrite decide_True.
Qed.

Lemma nanvar_numbers xs :
  2 ≤ length xs → pd.nanvar (map Fin xs) = Fin (sample_variance xs).
Proof.
  intros Hlen. unfold pd.nanvar, pd.ddof. rewrite dropna_Fin.
  rewrite decide_False by lia. unfold sample_variance.
  fold (arithmetic_mean xs). f_equal. f_equal.
  - f_equal. apply map_ext. intros x. ring.
  - rewrite minus_INR by lia. reflexivity.
Qed.

Lemma nanstd_numbers xs :
  2 ≤ length xs → pd.nanstd (map Fin xs) = Fin (sqrt (sample_variance xs)).
Proof. intros Hlen. unfold pd.nanstd. by rewrite nanvar_numbers. Qed.

Lemma nanvar_degenerate xs :
  length xs ≤ 1 → pd.nanvar (map Fin xs) = NaN ∧ pd.nanstd (map Fin xs) = NaN.
Proof.
  intros Hlen. unfold pd.nanstd, pd.nanvar, pd.ddof. rewrite dropna_Fin.
  by rewrite decide_True.
Qed.

Lemma arithmetic_mean_123 : arithmetic_mean [1; 2; 3]%R = 2%R.
Proof. unfold arithmetic_mean. cbn. lra. Qed.

Lemma sample_variance_123 : sample_variance [1; 2; 3]%R = 1%R.
Proof. unfold sample_variance. rewrite arithmetic_mean_123. cbn. lra. Qed.

(** A group with numbers in it is the group of a key of the table. *)
Lemma group_key_in_unique dataset mirna_id :
  numbers (group_column dataset mirna_id) ≠ [] ∨ group_column dataset mirna_id ≠ [] →
  mirna_id ∈ pd.unique (map miRNA_ID dataset).
Proof.
  intros Hne.
  assert (group_column dataset mirna_id ≠ []) as Hcol.
  { destruct Hne as [Hne|Hne]; [|assumption]. intros Hnil. by rewrite Hnil in Hne. }
  unfold group_column in Hcol.
  destruct (mirna_subset dataset mirna_id) as [|r rest] eqn:Hsub; [done|].
  assert (r ∈ mirna_subset dataset mirna_id) as Hr by (rewrite Hsub; left).
  apply elem_of_mirna_subset in Hr as (Hr & <- & _).
  apply unique_elem, list_elem_of_fmap. eauto.
Qed.

Lemma group_statistics_full dataset mirna_id xs :
  numbers (group_column dataset mirna_id) = xs → 2 ≤ length xs →
  group_statistics dataset mirna_id =
  Statistics mirna_id (Fin (arithmetic_mean xs)) (Fin (sample_variance xs))
             (Fin (sqrt (sample_variance xs))).
Proof.
  intros Hxs Hlen. unfold group_statistics. rewrite Hxs.
  rewrite nanmean_numbers, nanvar_numbers, nanstd_numbers by lia. reflexivity.
Qed.

(** * The aggregation *)

(** C1. On a table in which no row with a key holds text in the value
    column, the aggregation returns exactly one row per distinct value of
    the key column, and the rows come in first-seen order: a key that is
    output earlier first occurs earlier in the table. *)
Theorem mirna_statistics_one_row_per_key_first_seen (dataset : DataFrame) :
  text_in_some_group dataset = false →
  ∃ out, mirna_statistics dataset = Ok out ∧
    let keys := map stat_miRNA_ID out in
    let column := map miRNA_ID dataset in
    NoDup keys ∧
    (∀ k, k ∈ keys ↔ k ∈ column) ∧
    (∀ i j ki kj, keys !! i = Some ki → keys !! j = Some kj → i < j →
       first_index ki column < first_index kj column).
Proof.
  intros Hnum.
  eexists. split; [by apply mirna_statistics_Ok|]. cbn zeta.
  rewrite map_key_group_statistics. split; [apply unique_NoDup|]. split.
  - intros k. apply unique_elem.
  - apply unique_first_seen.
Qed.

Lemma mirna_statistics_one_row_per_key_first_seen_witness :
  text_in_some_group dataset_123 = false ∧
  ∃ out, mirna_statistics dataset_123 = Ok out ∧
    let keys := map stat_miRNA_ID out in
    let column := map miRNA_ID dataset_123 in
    NoDup keys ∧
    (∀ k, k ∈ keys ↔ k ∈ column) ∧
    (∀ i j ki kj, keys !! i = Some ki → keys !! j = Some kj → i < j →
       first_index ki column < first_index kj column).
Proof.
  split; [reflexivity|].
  apply (mirna_statistics_one_row_per_key_first_seen dataset_123). reflexivity.
Defined.

(** C2. When the group of a key holds n >= 2 numbers, the row returned for
    that key has the arithmetic mean of those numbers as its average, the
    sum of squared deviations from that mean divided by n-1 as its variance
    and the square root of the variance as its standard deviation; for the
    numbers 1, 2, 3 these are 2, 1 and 1. *)
Theorem group_mean_sample_variance_stddev
    (dataset : DataFrame) (mirna_id : key) (xs : list R) :
  text_in_some_group dataset = false →
  numbers (group_column dataset mirna_id) = xs →
  2 ≤ length xs →
  ∃ out row, mirna_statistics dataset = Ok out ∧ row ∈ out ∧
    stat_miRNA_ID row = mirna_id ∧
    average_expression row = Fin (arithmetic_mean xs) ∧
    variance_expression row = Fin (sample_variance xs) ∧
    standard_deviation row = Fin (sqrt (sample_variance xs)) ∧
    (xs = [1; 2; 3]%R →
       average_expression row = Fin 2 ∧ variance_expression row = Fin 1
       ∧ standard_deviation row = Fin 1).
Proof.
  intros Hnum Hxs Hlen.
  exists (map (group_statistics dataset) (pd.unique (map miRNA_ID dataset))).
  exists (group_statistics dataset mirna_id).
  split; [by apply mirna_statistics_Ok|]. split.
  { apply list_elem_of_fmap. exists mirna_id. split; [reflexivity|].
    apply group_key_in_unique. left. rewrite Hxs.
    destruct xs; [cbn in Hlen; lia | done]. }
  rewrite (group_statistics_full _ _ _ Hxs Hlen). cbn.
  do 4 (split; [reflexivity|]). intros ->.
  by rewrite arithmetic_mean_123, sample_variance_123, sqrt_1.
Qed.

Lemma group_mean_sample_variance_stddev_witness :
  ∃ out row, mirna_statistics dataset_123 = Ok out ∧ row ∈ out ∧
    stat_miRNA_ID row = X ∧
    average_expression row = Fin (arithmetic_mean [1; 2; 3]%R) ∧
    variance_expression row = Fin (sample_variance [1; 2; 3]%R) ∧
    standard_deviation row = Fin (sqrt (sample_variance [1; 2; 3]%R)) ∧
    ([1; 2; 3]%R = [1; 2; 3]%R →
       average_expression row = Fin 2 ∧ variance_expression row = Fin 1
       ∧ standard_deviation row = Fin 1).
Proof.
  apply (group_mean_sample_variance_stddev dataset_123 X [1; 2; 3]%R).
  - reflexivity.
  - reflexivity.
  - simpl. lia.
Defined.

(** C6. When the group of a key has exactly one member, the row returned
    for that key has a not-a-number variance and standard deviation and the
    member's value as its average; no error is raised, and every other
    group still gets its mean, sample variance and standard deviation. *)
Theorem singleton_group_statistics
    (dataset : DataFrame) (mirna_id : key) (v : pyfloat) :
  text_in_some_group dataset = false →
  group_column dataset mirna_id = [Number v] →
  ∃ out, mirna_statistics dataset = Ok out ∧
    Statistics mirna_id v NaN NaN ∈ out ∧
    (∀ other xs, other ≠ mirna_id →
       numbers (group_column dataset other) = xs → 2 ≤ length xs →
       Statistics other (Fin (arithmetic_mean xs)) (Fin (sample_variance xs))
                  (Fin (sqrt (sample_variance xs))) ∈ out).
Proof.
  intros Hnum Hgroup.
  eexists. split; [by apply mirna_statistics_Ok|]. split.
  - apply list_elem_of_fmap. exists mirna_id. split.
    + unfold group_statistics. rewrite Hgroup.
      destruct v as [x|]; cbn [numbers map].
      * destruct (nanvar_degenerate [x]) as [Hvar Hstd]; [cbn; lia|].
        pose proof (nanmean_numbers [x]) as Hmean.
        cbn [map] in Hvar, Hstd, Hmean.
        rewrite Hvar, Hstd, Hmean by (cbn; lia).
        f_equal. f_equal. unfold arithmetic_mean. cbn. lra.
      * reflexivity.
    + apply group_key_in_unique. right. by rewrite Hgroup.
  - intros other xs _ Hxs Hlen. apply list_elem_of_fmap. exists other. split.
    + symmetry. by apply group_statistics_full.
    + apply group_key_in_unique. left. rewrite Hxs.
      destruct xs; [cbn in Hlen; lia | done].
Qed.

Lemma singleton_group_statistics_witness :
  ∃ out, mirna_statistics dataset_123 = Ok out ∧
    Statistics Y (Fin 5) NaN NaN ∈ out ∧
    (∀ other xs, other ≠ Y →
       numbers (group_column dataset_123 other) = xs → 2 ≤ length xs →
       Statistics other (Fin (arithmetic_mean xs)) (Fin (sample_variance xs))
                  (Fin (sqrt (sample_variance xs))) ∈ out).
Proof.
  apply (singleton_group_statistics dataset_123 Y (Fin 5)); reflexivity.
Defined.

(** C7, as stated, fails: with the text entry "abc" in the group of the
    second key, the aggregation raises a type error and returns no table
    at all, so the first key gets no statistics either. *)
Lemma text_entry_counterexample :
  text_in_some_group dataset_text = true ∧
  mirna_statistics dataset_text = Raise TypeError ∧
  ¬ ∃ out, mirna_statistics dataset_text = Ok out.
Proof.
  assert (mirna_statistics dataset_text = Raise TypeError) as Hraise
    by (by apply mirna_statistics_Raise).
  split; [reflexivity|]. split; [assumption|].
  intros [out Hout]. congruence.
Qed.

(** C7, amended. When some row with a key holds text in the value column,
    the aggregation aborts with a type error and returns no table.
    Otherwise it returns normally, and missing values are left out of the
    reductions: the row of a group holds the mean, variance and standard
    deviation of the numbers of the group. *)
Theorem text_entry_raises_TypeError (dataset : DataFrame) :
  (text_in_some_group dataset = true →
   mirna_statistics dataset = Raise TypeError
   ∧ ¬ ∃ out, mirna_statistics dataset = Ok out) ∧
  (text_in_some_group dataset = false →
   mirna_statistics dataset =
   Ok (map (group_statistics dataset) (pd.unique (map miRNA_ID dataset)))).
Proof.
  split.
  - intros Htext. rewrite (mirna_statistics_Raise _ Htext).
    split; [reflexivity|]. intros [out Hout]. discriminate.
  - apply mirna_statistics_Ok.
Qed.

Lemma text_entry_raises_TypeError_witness :
  (mirna_statistics dataset_text = Raise TypeError
   ∧ ¬ ∃ out, mirna_statistics dataset_text = Ok out) ∧
  mirna_statistics dataset_missing_value =
  Ok (map (group_statistics dataset_missing_value)
          (pd.unique (map miRNA_ID dataset_missing_value))).
Proof.
  split.
  - apply (text_entry_raises_TypeError dataset_text). reflexivity.
  - apply (text_entry_raises_TypeError dataset_missing_value). reflexivity.
Defined.

(** * Resource sampling and the store *)

Lemma fresh_reference (h : gmap positive object) : h !! fresh (dom h) = None.
Proof. apply not_elem_of_dom, is_fresh. Qed.

Lemma call_returns ps dataset w rows :
  heap w !! dataset = Some (Frame rows) →
  text_in_some_group rows = false →
  calculate_average_and_variance_mirna_expression ps dataset w =
  (World (<[fresh (dom (heap w)) :=
              StatisticsFrame (map (group_statistics rows)
                                   (pd.unique (map miRNA_ID rows)))]> (heap w))
         (console w ++ [CPU_Usage (cpu_after ps - cpu_before ps);
                        RAM_Usage (ram_after ps - ram_before ps);
                        Disk_Usage (disk_after ps - disk_before ps)]),
   Ok (fresh (dom (heap w)))).
Proof.
  intros Hdataset Htext. unfold calculate_average_and_variance_mirna_expression.
  by rewrite Hdataset, (mirna_statistics_Ok _ Htext).
Qed.

(** C8. The answers to the resource queries do not reach the returned
    table: two calls on the same table in the same store return the same
    reference, leave the same store and hold the same table, whatever the
    two sets of readings are.  A call on a table in which no row with a key
    holds text completes, returns the rows of the grouping loop, and prints
    exactly the three differences after minus before, for CPU, RAM and
    disk in this order; no completed call prints anything else. *)
Theorem resource_readings_do_not_reach_the_table
    (ps ps' : psutil_readings) (dataset : positive) (w : world) :
  let run := calculate_average_and_variance_mirna_expression ps dataset w in
  let run' := calculate_average_and_variance_mirna_expression ps' dataset w in
  returned_table run = returned_table run' ∧
  snd run = snd run' ∧
  heap (fst run) = heap (fst run') ∧
  (∀ rows, heap w !! dataset = Some (Frame rows) →
     text_in_some_group rows = false →
     (∃ frame, snd run = Ok frame) ∧
     returned_table run = mirna_statistics rows ∧
     console (fst run) =
     console w ++ [CPU_Usage (cpu_after ps - cpu_before ps);
                   RAM_Usage (ram_after ps - ram_before ps);
                   Disk_Usage (disk_after ps - disk_before ps)]) ∧
  (∀ frame, snd run = Ok frame →
     console (fst run) =
     console w ++ [CPU_Usage (cpu_after ps - cpu_before ps);
                   RAM_Usage (ram_after ps - ram_before ps);
                   Disk_Usage (disk_after ps - disk_before ps)]).
Proof.
  cbn zeta. split; [|split; [|split; [|split]]].
  - unfold calculate_average_and_variance_mirna_expression.
    destruct (heap w !! dataset) as [[rows|rows]|]; cbn; try reflexivity.
    destruct (mirna_statistics rows) as [statistics|e]; cbn; reflexivity.
  - unfold calculate_average_and_variance_mirna_expression.
    destruct (heap w !! dataset) as [[rows|rows]|]; cbn; try reflexivity.
    destruct (mirna_statistics rows) as [statistics|e]; cbn; reflexivity.
  - unfold calculate_average_and_variance_mirna_expression.
    destruct (heap w !! dataset) as [[rows|rows]|]; cbn; try reflexivity.
    destruct (mirna_statistics rows) as [statistics|e]; cbn; reflexivity.
  - intros rows Hdataset Htext.
    rewrite (call_returns ps _ _ _ Hdataset Htext).
    split; [by eexists|]. split; [|reflexivity].
    unfold returned_table. cbn [heap]. rewrite lookup_insert_eq.
    by rewrite (mirna_statistics_Ok _ Htext).
  - intros frame. unfold calculate_average_and_variance_mirna_expression.
    destruct (heap w !! dataset) as [[rows|rows]|]; cbn; try discriminate.
    destruct (mirna_statistics rows) as [statistics|e]; cbn;
      [reflexivity | discriminate].
Qed.

Lemma resource_readings_do_not_reach_the_table_witness :
  let run := calculate_average_and_variance_mirna_expression idle 1%positive world_123 in
  let run' := calculate_average_and_variance_mirna_expression busy 1%positive world_123 in
  returned_table run' = returned_table run ∧
  (∃ frame, snd run' = Ok frame) ∧
  returned_table run' = mirna_statistics dataset_123 ∧
  console (fst run') =
  [CPU_Usage (90 - 10); RAM_Usage (45 - 40); Disk_Usage (71 - 70)].
Proof.
  destruct (resource_readings_do_not_reach_the_table busy idle 1%positive world_123)
    as (Hsame & _ & _ & Hcompletes & _).
  destruct (Hcompletes dataset_123 eq_refl eq_refl) as (Hframe & Htable & Hprinted).
  split; [exact Hsame|]. split; [exact Hframe|]. split; [exact Htable|].
  exact Hprinted.
Defined.

(** C10. The aggregation leaves its input table as it was: after the call
    the reference passed in holds the same frame, every object of the
    store is unchanged, and the returned frame sits at a reference that was
    not in use before the call. *)
Theorem input_table_is_left_unchanged
    (ps : psutil_readings) (dataset : positive) (w : world) (rows : DataFrame) :
  heap w !! dataset = Some (Frame rows) →
  let run := calculate_average_and_variance_mirna_expression ps dataset w in
  heap (fst run) !! dataset = Some (Frame rows) ∧
  (∀ l o, heap w !! l = Some o → heap (fst run) !! l = Some o) ∧
  (∀ frame, snd run = Ok frame →
     heap w !! frame = None ∧ frame ≠ dataset ∧
     ∃ statistics, mirna_statistics rows = Ok statistics ∧
                   heap (fst run) !! frame = Some (StatisticsFrame statistics)).
Proof.
  intros Hdataset. unfold calculate_average_and_variance_mirna_expression.
  rewrite Hdataset.
  destruct (mirna_statistics rows) as [statistics|e]; cbn [fst snd heap console].
  - pose proof (fresh_reference (heap w)) as Hfresh.
    assert (∀ l o, heap w !! l = Some o → fresh (dom (heap w)) ≠ l) as Hne
      by (intros l o Hl Heq; rewrite Heq in Hfresh; congruence).
    split; [|split].
    + rewrite lookup_insert_ne by eauto. assumption.
    + intros l o Hl. rewrite lookup_insert_ne by eauto. assumption.
    + intros frame [= <-]. split; [assumption|]. split; [eauto|].
      exists statistics. split; [reflexivity|]. apply lookup_insert_eq.
  - split; [assumption|]. split; [auto|]. intros frame [=].
Qed.

Lemma input_table_is_left_unchanged_witness :
  heap world_123 !! 1%positive = Some (Frame dataset_123) ∧
  let run := calculate_average_and_variance_mirna_expression busy 1%positive world_123 in
  heap (fst run) !! 1%positive = Some (Frame dataset_123) ∧
  (∀ l o, heap world_123 !! l = Some o → heap (fst run) !! l = Some o) ∧
  (∀ frame, snd run = Ok frame →
     heap world_123 !! frame = None ∧ frame ≠ 1%positive ∧
     ∃ statistics, mirna_statistics dataset_123 = Ok statistics ∧
                   heap (fst run) !! frame = Some (StatisticsFrame statistics)).
Proof.
  split; [reflexivity|].
  apply (input_table_is_left_unchanged busy 1%positive world_123 dataset_123).
  reflexivity.
Defined.

(** * The loader *)

Section mapM_more.
Context {A B : Type} (f : A → result B).

Lemma mapM_app l1 l2 :
  mapM f (l1 ++ l2) = (a ← mapM f l1; b ← mapM f l2; mret (a ++ b)).
Proof.
  induction l1 as [|x l1 IH].
  - cbn. by destruct (mapM f l2).
  - rewrite <- app_comm_cons, !mapM_cons, IH.
    destruct (f x); cbn; [|reflexivity].
    destruct (mapM f l1); cbn; [|reflexivity].
    by destruct (mapM f l2).
Qed.

End mapM_more.

Lemma read_files_spec files dataframes :
  read_files files dataframes =
  (frames ← mapM read_csv (List.filter is_data files); mret (dataframes ++ frames)).
Proof.
  revert dataframes. induction files as [|f files IH]; intros dataframes.
  - cbn. by rewrite app_nil_r.
  - cbn [read_files List.filter]. unfold is_data at 1, is_sidecar.
    destruct (bool_decide (file_name f = "annotations.txt")); [apply IH|].
    destruct (bool_decide (file_name f = "MANIFEST.txt")); [apply IH|].
    cbn [orb negb]. rewrite mapM_cons.
    destruct (read_csv f) as [data|e]; cbn; [|reflexivity].
    rewrite IH. destruct (mapM read_csv (List.filter is_data files)); cbn;
      [|reflexivity].
    by rewrite <- app_assoc.
Qed.

Lemma read_directories_spec entries dataframes :
  read_directories entries dataframes =
  (frames ← mapM read_csv (List.filter is_data (concat (map snd entries)));
   mret (dataframes ++ frames)).
Proof.
  revert dataframes.
  induction entries as [|[[root dirs] files] entries IH]; intros dataframes.
  - cbn. by rewrite app_nil_r.
  - assert (read_directories ((root, dirs, files) :: entries) dataframes =
            (dataframes' ← read_files files dataframes;
             read_directories entries dataframes')) as ->.
    { destruct files; [|reflexivity]. cbn. reflexivity. }
    cbn [map concat snd]. rewrite List.filter_app, mapM_app.
    rewrite read_files_spec.
    destruct (mapM read_csv (List.filter is_data files)); cbn; [|reflexivity].
    rewrite IH.
    destruct (mapM read_csv (List.filter is_data (concat (map snd entries)))); cbn;
      [|reflexivity].
    by rewrite <- app_assoc.
Qed.

Lemma walk_files : ∀ tree top, concat (map snd (walk top tree)) = all_files tree.
Proof.
  fix IH 1. intros [files dirs] top. cbn. f_equal.
  induction dirs as [|[name sub] rest IHrest]; [reflexivity|].
  rewrite map_app, concat_app, IH, IHrest. reflexivity.
Qed.

Lemma all_files_without_sidecars : ∀ tree,
  all_files (without_sidecars tree) = List.filter is_data (all_files tree).
Proof.
  fix IH 1. intros [files dirs]. cbn. rewrite List.filter_app. f_equal.
  induction dirs as [|[name sub] rest IHrest]; [reflexivity|].
  rewrite List.filter_app, IH, IHrest. reflexivity.
Qed.

Lemma filter_idempotent {A} (p : A → bool) l :
  List.filter p (List.filter p l) = List.filter p l.
Proof.
  induction l as [|x l IH]; [reflexivity|]. cbn.
  destruct (p x) eqn:Hp; cbn; [rewrite Hp; by f_equal | assumption].
Qed.

Lemma data_files_without_sidecars tree :
  data_files (without_sidecars tree) = data_files tree.
Proof.
  unfold data_files. rewrite all_files_without_sidecars. apply filter_idempotent.
Qed.

Lemma bind_ret_nil {A B} (m : result (list A)) (g : list A → result B) :
  ((frames ← m; mret ([] ++ frames)) ≫= g) = (m ≫= g).
Proof. by destruct m. Qed.

(** What [load_data] returns is a function of the files not skipped. *)
Lemma load_data_spec base_path tree :
  load_data base_path tree =
  (dataframes ← mapM read_csv (data_files tree);
   match dataframes with
   | [] => Raise ValueError
   | _ => Ok (concat dataframes)
   end).
Proof.
  unfold load_data. rewrite read_directories_spec, walk_files.
  apply bind_ret_nil.
Qed.

Lemma mapM_read_csv_parses files :
  forallb parses files = true → mapM read_csv files = Ok (map rows_of files).
Proof.
  intros Hall. apply mapM_Ok_map. intros f Hf.
  rewrite forallb_forall in Hall. apply list_elem_of_In, Hall in Hf.
  unfold parses in Hf. unfold rows_of. by destruct (read_csv f).
Qed.

Lemma mapM_read_csv_fails files :
  forallb parses files = false →
  ∃ f e, f ∈ files ∧ read_csv f = Raise e ∧ mapM read_csv files = Raise e.
Proof.
  induction files as [|f files IH]; [discriminate|]. cbn [forallb]. intros Hall.
  rewrite mapM_cons. unfold parses at 1 in Hall.
  destruct (read_csv f) as [data|e] eqn:Hf.
  - destruct (IH Hall) as (f' & e & Hin & Hf' & Hraise).
    exists f', e. split; [by right|]. split; [assumption|].
    cbn. by rewrite Hraise.
  - exists f, e. split; [left|]. by split.
Qed.

Lemma length_concat_rows files :
  length (concat (map rows_of files)) = sum_list (map row_count files).
Proof.
  induction files as [|f files IH]; [reflexivity|].
  cbn. rewrite length_app, IH. reflexivity.
Qed.

(** C3. When at least one file of the tree is not skipped and every file
    that is not skipped parses, [load_data] returns a table with as many
    rows as those files have together. *)
Theorem load_data_row_count (base_path : string) (tree : directory) :
  0 < length (data_files tree) →
  forallb parses (data_files tree) = true →
  ∃ table, load_data base_path tree = Ok table ∧
           length table = sum_list (map row_count (data_files tree)).
Proof.
  intros Hsome Hall. exists (concat (map rows_of (data_files tree))).
  split; [|apply length_concat_rows].
  rewrite load_data_spec, (mapM_read_csv_parses _ Hall).
  destruct (data_files tree); [cbn in Hsome; lia | reflexivity].
Qed.

Lemma load_data_row_count_witness :
  ∃ table, load_data "data" tree_download = Ok table ∧
           length table = sum_list (map row_count (data_files tree_download)).
Proof.
  apply (load_data_row_count "data" tree_download).
  - vm_compute. lia.
  - reflexivity.
Defined.

(** C4. Files named [annotations.txt] or [MANIFEST.txt] contribute nothing
    to what [load_data] returns, whatever they hold and wherever they are:
    the outcome is that on the tree with those files taken out, two trees
    that differ only in such files load alike, and a returned table is the
    rows of the other files, stacked in the order of the walk. *)
Theorem sidecar_files_never_loaded (base_path : string) (tree : directory) :
  load_data base_path tree = load_data base_path (without_sidecars tree) ∧
  (∀ tree', without_sidecars tree' = without_sidecars tree →
            load_data base_path tree' = load_data base_path tree) ∧
  (∀ table, load_data base_path tree = Ok table →
            table = concat (map rows_of (data_files tree))).
Proof.
  assert (∀ t, load_data base_path t = load_data base_path (without_sidecars t))
    as Hstrip.
  { intros t. by rewrite !load_data_spec, data_files_without_sidecars. }
  split; [apply Hstrip|]. split.
  - intros tree' Heq. by rewrite (Hstrip tree'), Heq, <- Hstrip.
  - intros table. rewrite load_data_spec.
    destruct (forallb parses (data_files tree)) eqn:Hall.
    + rewrite (mapM_read_csv_parses _ Hall).
      destruct (data_files tree); cbn; congruence.
    + destruct (mapM_read_csv_fails _ Hall) as (f & e & _ & _ & ->). discriminate.
Qed.

Lemma sidecar_files_never_loaded_witness :
  load_data "data" tree_download = load_data "data" tree_plain ∧
  load_data "data" tree_download =
  Ok [Row (Some "X") (Number (Fin 10)); Row (Some "Y") (Number (Fin 20));
      Row (Some "X") (Number (Fin 30))].
Proof.
  destruct (sidecar_files_never_loaded "data" tree_plain) as (_ & Hsame & _).
  split; [by apply Hsame | reflexivity].
Defined.

(** C5, as stated, fails.  A tree whose only file is not skipped and does
    not parse holds no eligible file, yet [load_data] raises the parser's
    error and not the no-data error; a tree with an eligible file next to
    such a file raises the parser's error too. *)
Lemma no_eligible_file_counterexample :
  (eligible_files tree_broken = [] ∧
   load_data "data" tree_broken = Raise ParserError ∧
   load_data "data" tree_broken ≠ Raise ValueError) ∧
  (eligible_files tree_mixed = [a_tsv] ∧
   load_data "data" tree_mixed = Raise ParserError).
Proof. repeat split; (reflexivity || discriminate). Qed.

Lemma first_unparseable files :
  forallb parses files = false →
  ∃ before f after e,
    files = before ++ f :: after ∧ forallb parses before = true
    ∧ read_csv f = Raise e.
Proof.
  induction files as [|f files IH]; [discriminate|]. cbn [forallb].
  destruct (parses f) eqn:Hf; cbn [andb].
  - intros Hrest. destruct (IH Hrest) as (before & f' & after & e & -> & Hbefore & Hf').
    exists (f :: before), f', after, e. cbn. rewrite Hf, Hbefore. done.
  - intros _. unfold parses in Hf. destruct (read_csv f) as [table|e] eqn:Hread;
      [discriminate|].
    exists [], f, files, e. done.
Qed.

Lemma load_data_first_unparseable base_path tree before f after e :
  data_files tree = before ++ f :: after → forallb parses before = true →
  read_csv f = Raise e → load_data base_path tree = Raise e.
Proof.
  intros Hfiles Hbefore Hf.
  rewrite load_data_spec, Hfiles, mapM_app, (mapM_read_csv_parses _ Hbefore).
  rewrite mapM_cons, Hf. reflexivity.
Qed.

(** C5, amended. With no file that is not skipped anywhere in the tree,
    [load_data] raises the no-data error instead of returning an empty
    table; with at least one, all of which parse, it raises nothing; when
    a file that is not skipped fails to parse, it raises the error of
    [read_csv] on the first such file in the order of the walk.  As
    [read_csv] does not raise the loader's own error, the no-data error is
    raised exactly when no file is left after skipping. *)
Theorem load_data_errors (base_path : string) (tree : directory) :
  (data_files tree = [] → load_data base_path tree = Raise ValueError) ∧
  (data_files tree ≠ [] → forallb parses (data_files tree) = true →
   ∃ table, load_data base_path tree = Ok table) ∧
  (forallb parses (data_files tree) = false →
   ∃ before f after e,
     data_files tree = before ++ f :: after ∧ forallb parses before = true
     ∧ read_csv f = Raise e ∧ load_data base_path tree = Raise e) ∧
  (existsb raises_no_data (data_files tree) = false →
   (load_data base_path tree = Raise ValueError ↔ data_files tree = [])).
Proof.
  assert (data_files tree = [] → load_data base_path tree = Raise ValueError) as Hnone.
  { rewrite load_data_spec. intros ->. reflexivity. }
  assert (data_files tree ≠ [] → forallb parses (data_files tree) = true →
          ∃ table, load_data base_path tree = Ok table) as Hall.
  { rewrite load_data_spec. intros Hsome Hall.
    rewrite (mapM_read_csv_parses _ Hall).
    destruct (data_files tree); [done|]. eexists. reflexivity. }
  assert (forallb parses (data_files tree) = false →
          ∃ before f after e,
            data_files tree = before ++ f :: after ∧ forallb parses before = true
            ∧ read_csv f = Raise e ∧ load_data base_path tree = Raise e) as Hfail.
  { intros Hparse.
    destruct (first_unparseable _ Hparse) as (before & f & after & e & Hfiles & Hbefore & Hf).
    exists before, f, after, e. repeat (split; [assumption|]).
    by eapply load_data_first_unparseable. }
  split; [assumption|]. split; [assumption|]. split; [assumption|].
  intros Hown. split; [|assumption]. intros Hraise.
  destruct (forallb parses (data_files tree)) eqn:Hparse.
  - destruct (data_files tree) as [|f fs] eqn:Hfiles; [reflexivity|].
    destruct Hall as [table Htable]; [done | reflexivity | congruence].
  - destruct (Hfail eq_refl) as (before & f & after & e & Hfiles & _ & Hf & He).
    rewrite Hraise in He. injection He as <-.
    rewrite Hfiles, existsb_app in Hown. cbn in Hown.
    unfold raises_no_data at 2 in Hown. rewrite Hf in Hown.
    rewrite orb_true_r in Hown. discriminate.
Qed.

Lemma load_data_errors_witness :
  load_data "data" tree_sidecars_only = Raise ValueError ∧
  (∃ table, load_data "data" tree_download = Ok table) ∧
  (∃ before f after e,
     data_files tree_mixed = before ++ f :: after ∧ forallb parses before = true
     ∧ read_csv f = Raise e ∧ load_data "data" tree_mixed = Raise e) ∧
  (load_data "data" tree_mixed = Raise ValueError ↔ data_files tree_mixed = []) ∧
  load_data "data" tree_mixed ≠ Raise ValueError.
Proof.
  destruct (load_data_errors "data" tree_sidecars_only) as (Hnone & _).
  destruct (load_data_errors "data" tree_download) as (_ & Hall & _).
  destruct (load_data_errors "data" tree_mixed) as (_ & _ & Hfail & Hown).
  split; [|split; [|split; [|split]]].
  - apply Hnone. reflexivity.
  - apply Hall; [discriminate | reflexivity].
  - apply Hfail. reflexivity.
  - apply Hown. reflexivity.
  - intros Hraise. apply Hown in Hraise; [discriminate | reflexivity].
Defined.

(** * The grouped reduction against the rescanning loop *)





Section index_lemmas.
Context {Acc : Type}.
Variable empty : Acc.



End index_lemmas.










(** * The averages-only function *)

Lemma mean_loop_body dataset mirna_id :
  match pd.mean (group_column dataset mirna_id) with
  | Ok average =>
      ∃ s, loop_body dataset mirna_id = Ok s
           ∧ to_average s = average.Row mirna_id average
  | Raise e => loop_body dataset mirna_id = Raise e
  end.
Proof.
  unfold loop_body, pd.mean, pd.var, pd.std. fold (group_column dataset mirna_id).
  destruct (mapM pd.ensure_numeric (group_column dataset mirna_id)) as [values|e]; cbn.
  - eexists. split; reflexivity.
  - reflexivity.
Qed.

Lemma mean_text dataset mirna_id :
  pd.mean (group_column dataset mirna_id) =
  if group_has_text dataset mirna_id then Raise TypeError
  else Ok (pd.nanmean (map Fin (numbers (group_column dataset mirna_id)))).
Proof.
  unfold group_has_text, pd.mean.
  destruct (existsb is_text (group_column dataset mirna_id)) eqn:Htext.
  - by rewrite (ensure_numeric_text _ Htext).
  - destruct (ensure_numeric_numbers _ Htext) as (values & -> & <-). cbn.
    by rewrite <- nanmean_dropna.
Qed.

Lemma average_loop_result dataset ids acc counter printed :
  snd (average_loop dataset ids acc counter printed) =
  (rows ← mapM (loop_body dataset) ids; mret (acc ++ map to_average rows)).
Proof.
  revert acc counter printed.
  induction ids as [|k ids IH]; intros acc counter printed.
  - cbn. by rewrite app_nil_r.
  - rewrite mapM_cons. cbn [average_loop]. fold (group_column dataset k).
    pose proof (mean_loop_body dataset k) as Hmean.
    destruct (pd.mean (group_column dataset k)) as [average|e].
    + destruct Hmean as (s & -> & Hs). rewrite IH. cbn.
      destruct (mapM (loop_body dataset) ids) as [rows|e]; cbn; [|reflexivity].
      by rewrite Hs, <- app_assoc.
    + by rewrite Hmean.
Qed.

Lemma average_loop_printed dataset ids acc counter printed :
  fst (average_loop dataset ids acc counter printed) =
  printed ++ seq (S counter) (groups_before_text dataset ids).
Proof.
  revert acc counter printed.
  induction ids as [|k ids IH]; intros acc counter printed.
  - cbn. by rewrite app_nil_r.
  - cbn [average_loop groups_before_text]. fold (group_column dataset k).
    rewrite mean_text. destruct (group_has_text dataset k).
    + cbn. by rewrite app_nil_r.
    + rewrite IH, <- app_assoc. cbn. by rewrite Nat.add_1_r.
Qed.

Lemma groups_before_text_all dataset ids :
  (∀ k, k ∈ ids → group_has_text dataset k = false) →
  groups_before_text dataset ids = length ids.
Proof.
  induction ids as [|k ids IH]; intros Hall; [reflexivity|]. cbn.
  rewrite Hall by left. rewrite IH; [reflexivity|].
  intros k' Hk'. apply Hall. by right.
Qed.

Lemma groups_before_text_some dataset ids :
  (∃ k, k ∈ ids ∧ group_has_text dataset k = true) →
  ∃ k, ids !! groups_before_text dataset ids = Some k
       ∧ group_has_text dataset k = true.
Proof.
  induction ids as [|k ids IH]; intros (k0 & Hin & Hk0); [inversion Hin|]. cbn.
  destruct (group_has_text dataset k) eqn:Hk; [by exists k|].
  apply IH. exists k0. split; [|assumption].
  apply elem_of_cons in Hin as [->|Hin]; [congruence | assumption].
Qed.

(** X1. The averages-only function returns the key and average columns of
    what the full aggregation returns, row for row, and raises exactly when
    the full aggregation raises, with the same exception. *)
Theorem calculate_average_agrees_with_full_aggregation (dataset : DataFrame) :
  snd (calculate_average_mirna_expression dataset) =
  (statistics ← mirna_statistics dataset; mret (map to_average statistics)).
Proof.
  unfold calculate_average_mirna_expression, mirna_statistics.
  by rewrite average_loop_result.
Qed.

(** X2. The averages-only function prints the counters 1, 2, ... one per
    group it completes.  When no row with a key holds text it prints one
    counter per distinct key; otherwise it stops at the first key, in
    first-seen order, whose group holds text, with the counters of the keys
    before it already printed. *)
Theorem calculate_average_progress_counters (dataset : DataFrame) :
  let ids := pd.unique (map miRNA_ID dataset) in
  let done := groups_before_text dataset ids in
  fst (calculate_average_mirna_expression dataset) = seq 1 done ∧
  (text_in_some_group dataset = false → done = length ids) ∧
  (text_in_some_group dataset = true →
   snd (calculate_average_mirna_expression dataset) = Raise TypeError ∧
   ∃ k, ids !! done = Some k ∧ group_has_text dataset k = true).
Proof.
  cbn zeta. split; [|split].
  - unfold calculate_average_mirna_expression. by rewrite average_loop_printed.
  - intros Htext. apply groups_before_text_all. intros k Hk.
    apply not_true_is_false. intros Hgroup.
    assert (text_in_some_group dataset = true)
      by (apply text_in_some_group_spec; eauto).
    congruence.
  - intros Htext. split.
    + unfold calculate_average_mirna_expression. rewrite average_loop_result.
      fold (mirna_statistics dataset). by rewrite mirna_statistics_Raise.
    + apply groups_before_text_some. by apply text_in_some_group_spec.
Qed.

Lemma calculate_average_progress_counters_witness :
  fst (calculate_average_mirna_expression dataset_123) = [1; 2] ∧
  fst (calculate_average_mirna_expression dataset_text) = [1] ∧
  snd (calculate_average_mirna_expression dataset_text) = Raise TypeError.
Proof.
  split; [|split].
  - apply (calculate_average_progress_counters dataset_123).
  - apply (calculate_average_progress_counters dataset_text).
  - apply (calculate_average_progress_counters dataset_text). reflexivity.
Defined.

(** * More on the aggregation *)

Lemma mapM_Ok_elem {A B} (f : A → result B) l out y :
  mapM f l = Ok out → y ∈ out → ∃ x, x ∈ l ∧ f x = Ok y.
Proof.
  intros Hout%mapM_Ok_Forall2 Hy.
  induction Hout as [|x y' l out Hx Hout IH]; [inversion Hy|].
  apply elem_of_cons in Hy as [->|Hy].
  - exists x. split; [left | assumption].
  - destruct (IH Hy) as (x' & Hin & Hx'). exists x'. split; [by right | assumption].
Qed.

Lemma mapM_Ok_length {A B} (f : A → result B) l out :
  mapM f l = Ok out → length out = length l.
Proof. intros Hout%mapM_Ok_Forall2. symmetry. by eapply Forall2_length. Qed.

Lemma loop_body_Ok_inv dataset mirna_id row :
  loop_body dataset mirna_id = Ok row →
  existsb is_text (group_column dataset mirna_id) = false
  ∧ row = group_statistics dataset mirna_id.
Proof.
  intros Hrow. destruct (existsb is_text (group_column dataset mirna_id)) eqn:Htext.
  - rewrite (loop_body_text _ _ Htext) in Hrow. discriminate.
  - rewrite (loop_body_numbers _ _ Htext) in Hrow. split; congruence.
Qed.

(** Every returned row is the statistics of the group of a key of the table. *)
Lemma mirna_statistics_elem dataset out row :
  mirna_statistics dataset = Ok out → row ∈ out →
  stat_miRNA_ID row ∈ map miRNA_ID dataset
  ∧ row = group_statistics dataset (stat_miRNA_ID row).
Proof.
  intros Hout Hrow. destruct (mapM_Ok_elem _ _ _ _ Hout Hrow) as (k & Hk & Hbody).
  apply loop_body_Ok_inv in Hbody as [_ ->]. cbn. split; [|reflexivity].
  by apply unique_elem.
Qed.

Lemma mirna_statistics_Ok_no_text dataset out :
  mirna_statistics dataset = Ok out → text_in_some_group dataset = false.
Proof.
  intros Hout. apply not_true_is_false. intros Htext.
  rewrite (mirna_statistics_Raise _ Htext) in Hout. discriminate.
Qed.

Lemma group_column_None dataset : group_column dataset None = [].
Proof.
  unfold group_column, mirna_subset, pd.select.
  induction dataset as [|r dataset IH]; [reflexivity|]. cbn.
  destruct (miRNA_ID r); cbn; assumption.
Qed.

Lemma group_column_app d1 d2 k :
  group_column (d1 ++ d2) k = group_column d1 k ++ group_column d2 k.
Proof.
  unfold group_column, mirna_subset, pd.select.
  by rewrite List.filter_app, map_app.
Qed.

Lemma group_column_absent dataset k :
  k ∉ map miRNA_ID dataset → group_column dataset k = [].
Proof.
  intros Hk. unfold group_column.
  destruct (mirna_subset dataset k) as [|r rest] eqn:Hsub; [reflexivity|].
  assert (r ∈ mirna_subset dataset k) as Hr by (rewrite Hsub; left).
  apply elem_of_mirna_subset in Hr as (Hr & <- & _).
  exfalso. apply Hk. apply list_elem_of_fmap. eauto.
Qed.

Lemma no_missing_keys_false dataset :
  no_missing_keys dataset = false → None ∈ map miRNA_ID dataset.
Proof.
  unfold no_missing_keys. induction dataset as [|r dataset IH]; [discriminate|].
  cbn. destruct (miRNA_ID r) as [s|] eqn:Hr.
  - rewrite bool_decide_eq_true_2 by eauto. cbn. intros H. right. by apply IH.
  - intros _. left.
Qed.

(** X3. A missing key gets one row, and that row holds not-a-number
    throughout whatever the rows without a key hold, text included: no row
    is selected for a missing key, so its reductions run on nothing. *)
Theorem missing_key_row_is_all_NaN (dataset : DataFrame) :
  text_in_some_group dataset = false →
  no_missing_keys dataset = false →
  loop_body dataset None = Ok (Statistics None NaN NaN NaN) ∧
  ∃ out, mirna_statistics dataset = Ok out ∧
         ∀ row, row ∈ out ∧ stat_miRNA_ID row = None ↔
                row = Statistics None NaN NaN NaN.
Proof.
  intros Htext Hmissing.
  assert (group_statistics dataset None = Statistics None NaN NaN NaN) as Hnone.
  { unfold group_statistics. by rewrite group_column_None. }
  split.
  - rewrite loop_body_numbers; [by rewrite Hnone|]. by rewrite group_column_None.
  - eexists. split; [by apply mirna_statistics_Ok|]. intros row. split.
    + intros [Hrow Hkey]. apply list_elem_of_fmap in Hrow as (k & -> & _).
      cbn in Hkey. by rewrite Hkey.
    + intros ->. split; [|reflexivity]. apply list_elem_of_fmap.
      exists None. split; [by rewrite Hnone|].
      by apply unique_elem, no_missing_keys_false.
Qed.

Lemma missing_key_row_is_all_NaN_witness :
  loop_body dataset_missing_key_text None = Ok (Statistics None NaN NaN NaN) ∧
  ∃ out, mirna_statistics dataset_missing_key_text = Ok out ∧
         ∀ row, row ∈ out ∧ stat_miRNA_ID row = None ↔
                row = Statistics None NaN NaN NaN.
Proof.
  apply (missing_key_row_is_all_NaN dataset_missing_key_text); reflexivity.
Defined.

Lemma unique_from_all_seen seen l :
  (∀ k, k ∈ l → k ∈ seen) → pd.unique_from seen l = [].
Proof.
  induction l as [|v l IH]; intros Hall; [reflexivity|]. cbn.
  rewrite decide_True by (apply Hall; left).
  apply IH. intros k Hk. apply Hall. by right.
Qed.

Lemma unique_constant k l :
  l ≠ [] → (∀ k', k' ∈ l → k' = k) → pd.unique l = [k].
Proof.
  destruct l as [|v l]; [done|]. intros _ Hall.
  assert (v = k) as -> by (apply Hall; left).
  unfold pd.unique. cbn. rewrite decide_False by apply not_elem_of_empty.
  f_equal. apply unique_from_all_seen. intros k' Hk'.
  rewrite (Hall k') by (by right).
  apply elem_of_union_l, elem_of_singleton. reflexivity.
Qed.

Lemma unique_app l1 l2 : ∃ more, pd.unique (l1 ++ l2) = pd.unique l1 ++ more.
Proof.
  induction l2 as [|k l2 [more IH]] using rev_ind.
  - exists []. by rewrite !app_nil_r.
  - rewrite app_assoc, unique_snoc, IH, <- app_assoc. eauto.
Qed.

Lemma mirna_subset_idempotent dataset k :
  mirna_subset (mirna_subset dataset k) k = mirna_subset dataset k.
Proof. apply filter_idempotent. Qed.

Lemma text_in_some_group_app d1 d2 :
  text_in_some_group (d1 ++ d2) = text_in_some_group d1 || text_in_some_group d2.
Proof. apply existsb_app. Qed.

Lemma text_in_some_group_subset dataset k :
  text_in_some_group dataset = false →
  text_in_some_group (mirna_subset dataset k) = false.
Proof.
  intros Htext. apply not_true_is_false. intros Hsub.
  apply existsb_exists in Hsub as (r & Hr & Hc).
  apply filter_In in Hr as [Hr _].
  assert (text_in_some_group dataset = true) by (apply existsb_exists; eauto).
  congruence.
Qed.

(** X4. The row of a key can be computed from the rows of that key alone:
    running the aggregation on the subset selected for a key returns
    exactly one row, the row the aggregation of the whole table returns for
    that key. *)
Theorem group_row_from_its_rows_alone (dataset : DataFrame) (mirna_id : key) :
  text_in_some_group dataset = false →
  0 < length (mirna_subset dataset mirna_id) →
  ∃ row out,
    mirna_statistics (mirna_subset dataset mirna_id) = Ok [row] ∧
    mirna_statistics dataset = Ok out ∧
    row ∈ out ∧ stat_miRNA_ID row = mirna_id.
Proof.
  intros Htext Hlen.
  exists (group_statistics dataset mirna_id). eexists.
  split; [|split; [by apply mirna_statistics_Ok|split; [|reflexivity]]].
  - rewrite mirna_statistics_Ok by (by apply text_in_some_group_subset).
    rewrite (unique_constant mirna_id).
    + cbn. unfold group_statistics, group_column.
      by rewrite mirna_subset_idempotent.
    + destruct (mirna_subset dataset mirna_id); [cbn in Hlen; lia | done].
    + intros k (r & -> & Hr)%list_elem_of_fmap.
      by apply elem_of_mirna_subset in Hr as (_ & ? & _).
  - apply list_elem_of_fmap. exists mirna_id. split; [reflexivity|].
    apply group_key_in_unique. right. unfold group_column.
    destruct (mirna_subset dataset mirna_id); [cbn in Hlen; lia | done].
Qed.

Lemma group_row_from_its_rows_alone_witness :
  ∃ row out,
    mirna_statistics (mirna_subset dataset_123 X) = Ok [row] ∧
    mirna_statistics dataset_123 = Ok out ∧
    row ∈ out ∧ stat_miRNA_ID row = X.
Proof.
  apply (group_row_from_its_rows_alone dataset_123 X).
  - reflexivity.
  - vm_compute. lia.
Defined.

(** X5. Appending rows to a table, as stacking one more file does, never
    reorders or drops the keys already there: the keys returned for the
    table are a prefix of the keys returned for the longer table, and a
    key that the appended rows do not mention keeps its row unchanged. *)
Theorem appending_rows_keeps_earlier_keys (d1 d2 : DataFrame) :
  text_in_some_group (d1 ++ d2) = false →
  ∃ out1 out12,
    mirna_statistics d1 = Ok out1 ∧
    mirna_statistics (d1 ++ d2) = Ok out12 ∧
    map stat_miRNA_ID out1 `prefix_of` map stat_miRNA_ID out12 ∧
    ∀ row, row ∈ out1 → stat_miRNA_ID row ∉ map miRNA_ID d2 → row ∈ out12.
Proof.
  intros Htext. pose proof Htext as Htext1.
  rewrite text_in_some_group_app in Htext1.
  apply orb_false_iff in Htext1 as [Htext1 _].
  do 2 eexists.
  split; [by apply mirna_statistics_Ok|]. split; [by apply mirna_statistics_Ok|].
  rewrite !map_key_group_statistics, map_app. split.
  - destruct (unique_app (map miRNA_ID d1) (map miRNA_ID d2)) as [more ->].
    by exists more.
  - intros row (k & -> & Hk)%list_elem_of_fmap Hnot. cbn in Hnot.
    apply list_elem_of_fmap. exists k. split.
    + unfold group_statistics.
      by rewrite group_column_app, (group_column_absent d2 k), app_nil_r.
    + apply unique_elem, elem_of_app. left. by apply unique_elem.
Qed.

Lemma appending_rows_keeps_earlier_keys_witness :
  ∃ out1 out12,
    mirna_statistics dataset_123 = Ok out1 ∧
    mirna_statistics (dataset_123 ++ dataset_missing_key) = Ok out12 ∧
    map stat_miRNA_ID out1 `prefix_of` map stat_miRNA_ID out12 ∧
    ∀ row, row ∈ out1 → stat_miRNA_ID row ∉ map miRNA_ID dataset_missing_key →
           row ∈ out12.
Proof.
  apply (appending_rows_keeps_earlier_keys dataset_123 dataset_missing_key).
  reflexivity.
Defined.

(** * Numerical facts about the returned statistics *)

Lemma nanvar_Fin_inv xs v :
  pd.nanvar (map Fin xs) = Fin v → 2 ≤ length xs ∧ v = sample_variance xs.
Proof.
  destruct (decide (2 ≤ length xs)) as [Hlen|Hlen].
  - rewrite (nanvar_numbers _ Hlen). intros [= <-]. by split.
  - destruct (nanvar_degenerate xs) as [-> _]; [lia | discriminate].
Qed.

Lemma sum_squares_nonneg (m : R) xs :
  (0 <= pd.sum (map (λ x, (x - m) * (x - m)) xs))%R.
Proof.
  induction xs as [|x xs IH]; cbn; [lra|].
  pose proof (Rle_0_sqr (x - m)) as Hsq. unfold Rsqr in Hsq. lra.
Qed.

Lemma sample_variance_nonneg xs : 2 ≤ length xs → (0 <= sample_variance xs)%R.
Proof.
  intros Hlen. unfold sample_variance. apply Rle_mult_inv_pos.
  - apply sum_squares_nonneg.
  - apply lt_0_INR. lia.
Qed.

(** X6. In every returned row a variance that is a number is not
    negative, and the standard deviation is then a number too, the square
    root of that variance. *)
Theorem variance_nonnegative_stddev_its_root
    (dataset : DataFrame) (out : list statistics)
    (i : nat) (row : statistics) (v : R) :
  mirna_statistics dataset = Ok out →
  out !! i = Some row →
  variance_expression row = Fin v →
  (0 <= v)%R ∧ standard_deviation row = Fin (sqrt v).
Proof.
  intros Hout Hrow%list_elem_of_lookup_2 Hv.
  apply (mirna_statistics_elem _ _ _ Hout) in Hrow as [_ Hrow].
  rewrite Hrow in Hv |- *. cbn in Hv |- *.
  apply nanvar_Fin_inv in Hv as [Hlen ->].
  split; [by apply sample_variance_nonneg | by apply nanstd_numbers].
Qed.

Lemma variance_nonnegative_stddev_its_root_witness :
  (0 <= pd.sum (map (λ x, (arithmetic_mean [1; 2; 3] - x) ^ 2) [1; 2; 3])
        / (INR 3 - INR 1))%R ∧
  standard_deviation (group_statistics dataset_123 X) =
  Fin (sqrt (pd.sum (map (λ x, (arithmetic_mean [1; 2; 3] - x) ^ 2) [1; 2; 3])
             / (INR 3 - INR 1)))%R.
Proof.
  apply (variance_nonnegative_stddev_its_root dataset_123
           (map (group_statistics dataset_123) [X; Y]) 0
           (group_statistics dataset_123 X)); reflexivity.
Defined.

(** X7. A group with fewer than two numbers, missing values not counted,
    gets not-a-number as its variance and as its standard deviation, and
    one with no number at all gets not-a-number as its average too,
    however many rows the group has. *)
Theorem few_numbers_give_nan_statistics
    (dataset : DataFrame) (out : list statistics) (i : nat) (row : statistics) :
  mirna_statistics dataset = Ok out →
  out !! i = Some row →
  length (numbers (group_column dataset (stat_miRNA_ID row))) ≤ 1 →
  variance_expression row = NaN ∧ standard_deviation row = NaN ∧
  (length (numbers (group_column dataset (stat_miRNA_ID row))) = 0 →
   average_expression row = NaN).
Proof.
  intros Hout Hrow%list_elem_of_lookup_2 Hlen.
  apply (mirna_statistics_elem _ _ _ Hout) in Hrow as [_ Hrow].
  set (k := stat_miRNA_ID row) in *. rewrite Hrow. cbn.
  set (xs := numbers (group_column dataset k)) in *.
  destruct (nanvar_degenerate xs Hlen) as [-> ->].
  split; [reflexivity|]. split; [reflexivity|].
  intros Hnone. by destruct xs.
Qed.

Lemma few_numbers_give_nan_statistics_witness :
  let row := group_statistics dataset_all_missing X in
  variance_expression row = NaN ∧ standard_deviation row = NaN ∧
  (length (numbers (group_column dataset_all_missing (stat_miRNA_ID row))) = 0 →
   average_expression row = NaN).
Proof.
  apply (few_numbers_give_nan_statistics dataset_all_missing
           (map (group_statistics dataset_all_missing) [X; Y]) 0).
  - reflexivity.
  - reflexivity.
  - simpl. lia.
Defined.

Lemma unique_from_length_le seen l :
  length (pd.unique_from seen l) ≤ length l.
Proof.
  revert seen. induction l as [|v l IH]; intros seen; cbn; [lia|].
  destruct (decide (v ∈ seen)); cbn.
  - specialize (IH seen). lia.
  - specialize (IH ({[v]} ∪ seen)). lia.
Qed.

Lemma unique_from_length_eq seen l :
  length (pd.unique_from seen l) = length l ↔
  NoDup l ∧ ∀ k, k ∈ l → k ∉ seen.
Proof.
  revert seen. induction l as [|v l IH]; intros seen; cbn.
  - split; [intros _; split; [constructor | intros k H; inversion H] | done].
  - destruct (decide (v ∈ seen)) as [Hv|Hv]; cbn.
    + pose proof (unique_from_length_le seen l). split; [lia|].
      intros [_ Hall]. exfalso. apply (Hall v); [left | assumption].
    + rewrite Nat.succ_inj_wd, IH, NoDup_cons. split.
      * intros [Hdup Hall]. split; [split; [|assumption]|].
        -- intros Hin. apply (Hall v Hin). apply elem_of_union_l.
           by apply elem_of_singleton.
        -- intros k [->|Hk]%elem_of_cons; [assumption|].
           intros Hseen. apply (Hall k Hk). by apply elem_of_union_r.
      * intros [[Hnotin Hdup] Hall]. split; [assumption|].
        intros k Hk [->%elem_of_singleton|Hseen]%elem_of_union; [done|].
        apply (Hall k); [by right | assumption].
Qed.

(** X8. The aggregation returns no more rows than the table has, as many
    exactly when no key occurs twice, and none exactly when the table is
    empty. *)
Theorem output_row_count (dataset : DataFrame) (out : list statistics) :
  mirna_statistics dataset = Ok out →
  length out ≤ length dataset ∧
  (length out = length dataset ↔ NoDup (map miRNA_ID dataset)) ∧
  (out = [] ↔ dataset = []).
Proof.
  intros Hout. pose proof (mapM_Ok_length _ _ _ Hout) as Hlen.
  pose proof (unique_from_length_le ∅ (map miRNA_ID dataset)) as Hle.
  pose proof (unique_from_length_eq ∅ (map miRNA_ID dataset)) as Heq.
  fold (pd.unique (map miRNA_ID dataset)) in Hle, Heq.
  rewrite length_map in Hle, Heq. rewrite <- Hlen in Hle, Heq.
  split; [assumption|]. split.
  - rewrite Heq. split; [by intros [? _]|].
    intros Hdup. split; [assumption|]. intros k _. apply not_elem_of_empty.
  - split.
    + intros ->. destruct dataset as [|r dataset]; [reflexivity|].
      unfold pd.unique in Hlen. cbn in Hlen.
      rewrite decide_False in Hlen by apply not_elem_of_empty. discriminate.
    + intros ->. by destruct out.
Qed.

Lemma output_row_count_witness :
  length (map (group_statistics dataset_123) [X; Y]) ≤ length dataset_123 ∧
  (length (map (group_statistics dataset_123) [X; Y]) = length dataset_123 ↔
   NoDup (map miRNA_ID dataset_123)) ∧
  (map (group_statistics dataset_123) [X; Y] = [] ↔ dataset_123 = []).
Proof.
  apply (output_row_count dataset_123). reflexivity.
Defined.

(** * More on the loader *)

Lemma load_data_Ok_inv base_path tree table :
  load_data base_path tree = Ok table →
  data_files tree ≠ [] ∧ forallb parses (data_files tree) = true
  ∧ table = concat (map rows_of (data_files tree)).
Proof.
  rewrite load_data_spec. destruct (forallb parses (data_files tree)) eqn:Hall.
  - rewrite (mapM_read_csv_parses _ Hall).
    destruct (data_files tree) as [|f fs]; cbn; [discriminate|].
    intros [= <-]. done.
  - destruct (mapM_read_csv_fails _ Hall) as (f & e & _ & _ & ->). discriminate.
Qed.

Lemma load_data_Ok base_path tree :
  data_files tree ≠ [] → forallb parses (data_files tree) = true →
  load_data base_path tree = Ok (concat (map rows_of (data_files tree))).
Proof.
  intros Hsome Hall. rewrite load_data_spec, (mapM_read_csv_parses _ Hall).
  by destruct (data_files tree).
Qed.

Lemma concat_rows_nil files :
  forallb (λ f, bool_decide (row_count f = 0)) files = true →
  concat (map rows_of files) = [].
Proof.
  induction files as [|f fs IH]; [reflexivity|]. cbn.
  intros [Hf Hrows]%andb_true_iff.
  apply bool_decide_eq_true in Hf. unfold row_count in Hf.
  apply nil_length_inv in Hf. rewrite Hf. cbn. by apply IH.
Qed.

(** X9. The no-data error is about files, not rows: a tree whose files
    that are not skipped all parse to zero rows, such as files holding a
    header only, loads as the empty table; nothing is raised. *)
Theorem load_data_of_files_without_rows (base_path : string) (tree : directory) :
  0 < length (data_files tree) →
  forallb parses (data_files tree) = true →
  forallb (λ f, bool_decide (row_count f = 0)) (data_files tree) = true →
  load_data base_path tree = Ok [].
Proof.
  intros Hsome Hall Hrows.
  rewrite load_data_Ok; [|destruct (data_files tree); [cbn in Hsome; lia | done]
                         |assumption].
  f_equal. by apply concat_rows_nil.
Qed.

Lemma load_data_of_files_without_rows_witness :
  load_data "data" tree_header_only = Ok [].
Proof.
  apply (load_data_of_files_without_rows "data" tree_header_only).
  - vm_compute. lia.
  - reflexivity.
  - reflexivity.
Defined.

(** X10. The loader stops at the first file, in the order of the walk,
    that is not skipped and does not parse: it raises the error of
    [read_csv] on that file, whatever comes after it in the tree. *)
Theorem load_data_raises_first_parse_error
    (base_path : string) (tree : directory)
    (before after : list file) (f : file) (e : exn) :
  data_files tree = before ++ f :: after →
  forallb parses before = true →
  read_csv f = Raise e →
  load_data base_path tree = Raise e.
Proof.
  intros Hfiles Hbefore Hf.
  rewrite load_data_spec, Hfiles, mapM_app, (mapM_read_csv_parses _ Hbefore).
  rewrite mapM_cons, Hf. reflexivity.
Qed.

Lemma load_data_raises_first_parse_error_witness :
  load_data "data" tree_mixed = Raise ParserError.
Proof.
  apply (load_data_raises_first_parse_error "data" tree_mixed [a_tsv] [] broken_tsv);
    reflexivity.
Defined.

(** X11. Names are compared exactly: the rows of every file whose name is
    neither [annotations.txt] nor [MANIFEST.txt], [manifest.txt] say, are
    in the loaded table, together and in their order. *)
Theorem non_skipped_file_rows_are_loaded
    (base_path : string) (tree : directory) (table : DataFrame)
    (i : nat) (f : file) :
  load_data base_path tree = Ok table →
  all_files tree !! i = Some f →
  is_sidecar (file_name f) = false →
  ∃ before after, table = before ++ rows_of f ++ after.
Proof.
  intros Hload Hf Hname.
  apply load_data_Ok_inv in Hload as (_ & _ & ->).
  assert (f ∈ data_files tree) as Hin.
  { unfold data_files. apply list_elem_of_In, filter_In. split.
    - apply list_elem_of_In. by eapply list_elem_of_lookup_2.
    - unfold is_data. by rewrite Hname. }
  apply list_elem_of_split in Hin as (l1 & l2 & ->).
  exists (concat (map rows_of l1)), (concat (map rows_of l2)).
  by rewrite map_app, concat_app.
Qed.

Lemma non_skipped_file_rows_are_loaded_witness :
  ∃ before after,
    [Row (Some "id") (Number (Fin 1)); Row (Some "X") (Number (Fin 10));
     Row (Some "Y") (Number (Fin 20))]
    = before ++ rows_of manifest_lowercase ++ after.
Proof.
  apply (non_skipped_file_rows_are_loaded "data" tree_lowercase _ 0 manifest_lowercase);
    reflexivity.
Defined.

(** X12. Only the order in which the walk meets the files matters, not how
    they are nested: the loader returns on a tree what it returns on the
    single directory that holds all the files of the tree in that order. *)
Theorem nesting_does_not_matter (base_path : string) (tree : directory) :
  load_data base_path tree = load_data base_path (Directory (all_files tree) []).
Proof.
  rewrite !load_data_spec. unfold data_files. cbn [all_files].
  by rewrite app_nil_r.
Qed.

(** * The script *)

(** The script in terms of the loader and the grouping loop. *)
Lemma main_unfold tree ps start end_ :
  main tree ps start end_ =
  match load_data "./miRNA Files" tree with
  | Raise e => Process [] None (Raise e)
  | Ok miRNA_data =>
      match mirna_statistics miRNA_data with
      | Raise e => Process [Print_miRNA_data miRNA_data] None (Raise e)
      | Ok rows =>
          Process [Print_miRNA_data miRNA_data;
                   Print_usage (CPU_Usage (cpu_after ps - cpu_before ps));
                   Print_usage (RAM_Usage (ram_after ps - ram_before ps));
                   Print_usage (Disk_Usage (disk_after ps - disk_before ps));
                   Print_analysis (to_csv rows);
                   Print_analysis_time (int (end_ - start))]
                  (Some (to_csv rows)) (Ok ())
      end
  end.
Proof.
  unfold main. destruct (load_data "./miRNA Files" tree) as [miRNA_data|e];
    [|reflexivity].
  unfold calculate_average_and_variance_mirna_expression.
  cbn [heap console]. rewrite lookup_singleton_eq.
  destruct (mirna_statistics miRNA_data) as [rows|e]; [|reflexivity].
  cbn [heap console]. rewrite lookup_insert_eq. reflexivity.
Qed.

Lemma to_csv_labels_from (offset : nat) (rows : list statistics) :
  map fst (imap (λ i r, (offset + i, r)) rows) = seq offset (length rows)
  ∧ map snd (imap (λ i r, (offset + i, r)) rows) = rows.
Proof.
  revert offset. induction rows as [|r rows IH]; intros offset; [done|].
  rewrite imap_cons. cbn [map fst snd length seq].
  rewrite Nat.add_0_r.
  rewrite (imap_ext _ (λ i r, (S offset + i, r)))
    by (intros i x _; cbn; f_equal; lia).
  destruct (IH (S offset)) as [-> ->]. done.
Qed.

Lemma to_csv_labels rows :
  map fst (to_csv rows) = seq 0 (length rows) ∧ map snd (to_csv rows) = rows.
Proof. apply (to_csv_labels_from 0). Qed.

(** X13. The script can end without an exception only when the tree holds
    a file that is not skipped, every such file parses, and no row with a
    key, in any of them, holds text in the value column; it has then
    written [miRNA_output.txt]. *)
Theorem main_success_requires
    (tree : directory) (ps : psutil_readings) (start end_ : R) :
  let run := main tree ps start end_ in
  exit run = Ok () →
  data_files tree ≠ [] ∧ forallb parses (data_files tree) = true ∧
  text_in_some_group (concat (map rows_of (data_files tree))) = false ∧
  ∃ written, miRNA_output_txt run = Some written.
Proof.
  cbn zeta. rewrite main_unfold.
  destruct (load_data "./miRNA Files" tree) as [table|e] eqn:Hload; [|discriminate].
  apply load_data_Ok_inv in Hload as (Hsome & Hall & ->).
  set (table := concat (map rows_of (data_files tree))).
  destruct (text_in_some_group table) eqn:Htext.
  - rewrite (mirna_statistics_Raise _ Htext). discriminate.
  - rewrite (mirna_statistics_Ok _ Htext). cbn. intros _.
    do 3 (split; [assumption || reflexivity|]). by eexists.
Qed.

Lemma main_success_requires_witness :
  data_files tree_download ≠ [] ∧ forallb parses (data_files tree_download) = true ∧
  text_in_some_group (concat (map rows_of (data_files tree_download))) = false ∧
  ∃ written, miRNA_output_txt (main tree_download busy 0 90) = Some written.
Proof.
  apply (main_success_requires tree_download busy 0%R 90%R).
  rewrite main_unfold. reflexivity.
Defined.

(** X14. When the script ends without an exception, the file holds the
    rows the aggregation returns for the loaded table, labelled 0, 1, 2,
    ... in that order, and the script has printed, in this order, the
    loaded table, the three resource differences, the labelled rows and
    the elapsed time. *)
Theorem main_output_on_success
    (tree : directory) (ps : psutil_readings) (start end_ : R) :
  let run := main tree ps start end_ in
  exit run = Ok () →
  ∃ table rows written,
    load_data "./miRNA Files" tree = Ok table ∧
    mirna_statistics table = Ok rows ∧
    miRNA_output_txt run = Some written ∧
    map fst written = seq 0 (length rows) ∧
    map snd written = rows ∧
    stdout run =
      [Print_miRNA_data table;
       Print_usage (CPU_Usage (cpu_after ps - cpu_before ps));
       Print_usage (RAM_Usage (ram_after ps - ram_before ps));
       Print_usage (Disk_Usage (disk_after ps - disk_before ps));
       Print_analysis written;
       Print_analysis_time (int (end_ - start))].
Proof.
  cbn zeta. rewrite main_unfold.
  destruct (load_data "./miRNA Files" tree) as [table|e]; [|discriminate].
  destruct (mirna_statistics table) as [rows|e] eqn:Hrows; [|discriminate].
  intros _. exists table, rows, (to_csv rows).
  destruct (to_csv_labels rows) as [Hfst Hsnd].
  split; [reflexivity|]. split; [assumption|]. split; [reflexivity|].
  do 2 (split; [assumption|]). reflexivity.
Qed.

Lemma main_output_on_success_witness :
  ∃ table rows written,
    load_data "./miRNA Files" tree_download = Ok table ∧
    mirna_statistics table = Ok rows ∧
    miRNA_output_txt (main tree_download busy 0 90) = Some written ∧
    map fst written = seq 0 (length rows) ∧
    map snd written = rows ∧
    stdout (main tree_download busy 0 90) =
      [Print_miRNA_data table;
       Print_usage (CPU_Usage (cpu_after busy - cpu_before busy));
       Print_usage (RAM_Usage (ram_after busy - ram_before busy));
       Print_usage (Disk_Usage (disk_after busy - disk_before busy));
       Print_analysis written;
       Print_analysis_time (int (90 - 0))].
Proof.
  apply (main_output_on_success tree_download busy 0%R 90%R).
  rewrite main_unfold. reflexivity.
Defined.



(** X16. Every call builds a frame of its own: a second call on the same
    table returns a reference different from the first, the frame of the
    first call is still there and holds the same rows as that of the
    second, and the table is as it was. *)
Theorem second_call_builds_another_frame
    (ps1 ps2 : psutil_readings) (dataset : positive) (w : world) (rows : DataFrame) :
  heap w !! dataset = Some (Frame rows) →
  text_in_some_group rows = false →
  let run1 := calculate_average_and_variance_mirna_expression ps1 dataset w in
  let run2 := calculate_average_and_variance_mirna_expression ps2 dataset (fst run1) in
  ∃ frame1 frame2 statistics,
    snd run1 = Ok frame1 ∧ snd run2 = Ok frame2 ∧ frame1 ≠ frame2 ∧
    heap (fst run2) !! frame1 = Some (StatisticsFrame statistics) ∧
    heap (fst run2) !! frame2 = Some (StatisticsFrame statistics) ∧
    heap (fst run2) !! dataset = Some (Frame rows).
Proof.
  intros Hdataset Htext. cbn zeta.
  rewrite (call_returns ps1 _ _ _ Hdataset Htext). cbn [fst snd].
  set (statistics := map (group_statistics rows) (pd.unique (map miRNA_ID rows))).
  set (frame1 := fresh (dom (heap w))).
  set (h1 := <[frame1:=StatisticsFrame statistics]> (heap w)).
  set (w1 := World h1 _).
  assert (frame1 ≠ dataset) as Hne.
  { intros Heq. pose proof (fresh_reference (heap w)) as Hfresh.
    fold frame1 in Hfresh. rewrite Heq in Hfresh. congruence. }
  assert (h1 !! dataset = Some (Frame rows)) as Hdataset1.
  { unfold h1. by rewrite lookup_insert_ne. }
  rewrite (call_returns ps2 dataset w1 rows Hdataset1 Htext). cbn [fst snd heap].
  fold statistics. set (frame2 := fresh (dom h1)).
  assert (h1 !! frame2 = None) as Hfresh2 by apply fresh_reference.
  assert (frame1 ≠ frame2) as Hne12.
  { intros Heq. rewrite <- Heq in Hfresh2.
    unfold h1 in Hfresh2. rewrite lookup_insert_eq in Hfresh2. discriminate. }
  assert (frame2 ≠ dataset) as Hne2.
  { intros Heq. rewrite Heq in Hfresh2. congruence. }
  exists frame1, frame2, statistics.
  split; [reflexivity|]. split; [reflexivity|]. split; [assumption|].
  split; [|split].
  - rewrite lookup_insert_ne by (intros Heq; by apply Hne12).
    unfold h1. apply lookup_insert_eq.
  - apply lookup_insert_eq.
  - rewrite lookup_insert_ne by assumption. assumption.
Qed.

Lemma second_call_builds_another_frame_witness :
  let run1 := calculate_average_and_variance_mirna_expression idle 1%positive world_123 in
  let run2 := calculate_average_and_variance_mirna_expression busy 1%positive (fst run1) in
  ∃ frame1 frame2 statistics,
    snd run1 = Ok frame1 ∧ snd run2 = Ok frame2 ∧ frame1 ≠ frame2 ∧
    heap (fst run2) !! frame1 = Some (StatisticsFrame statistics) ∧
    heap (fst run2) !! frame2 = Some (StatisticsFrame statistics) ∧
    heap (fst run2) !! 1%positive = Some (Frame dataset_123).
Proof.
  apply (second_call_builds_another_frame idle busy 1%positive world_123 dataset_123);
    reflexivity.
Defined.

(** * The end-to-end scenario

    Two data files and sidecar files: the loader stacks the three data
    rows, and the aggregation returns the two keys in first-seen order. *)
Example download_scenario :
  ∃ table, load_data "data" tree_download = Ok table ∧
    mirna_statistics table =
    Ok [Statistics (Some "X") (Fin 20) (Fin 200) (Fin (sqrt 200));
        Statistics (Some "Y") (Fin 20) NaN NaN].
Proof.
  eexists. split; [reflexivity|].
  rewrite mirna_statistics_Ok by reflexivity.
  change (pd.unique _) with [Some "X"; Some "Y"].
  cbn [map]. f_equal. f_equal; [|f_equal].
  - assert (arithmetic_mean [10; 30]%R = 20%R) as Hmean
      by (unfold arithmetic_mean; cbn; lra).
    assert (sample_variance [10; 30]%R = 200%R) as Hvar
      by (unfold sample_variance; rewrite Hmean; cbn; lra).
    rewrite (group_statistics_full _ _ [10; 30]%R) by (reflexivity || (cbn; lia)).
    by rewrite Hmean, Hvar.
  - unfold group_statistics.
    change (numbers (group_column _ _)) with [20%R].
    destruct (nanvar_degenerate [20%R]) as [-> ->]; [cbn; lia|].
    rewrite nanmean_numbers by (cbn; lia).
    do 2 f_equal. unfold arithmetic_mean. cbn. lra.
Qed.
